(** * Verification of the N-API binding helpers of tfjs-node

    A shallow embedding of [binding/utils.h] (namespace [tfnodejs]): the
    error-raising primitive [NapiThrowError], the status translators, the
    argument validators, [ExtractArrayShape], [GetStringParam], the
    integer-tensor builders and [split].

    The managed environment (N-API) and the native runtime (the TensorFlow C
    API) are external to the repository.  The boundary calls are taken as an
    interface ([NodeApi]) over which every definition and theorem is
    parametric; the tensor object of the native runtime is a small record. *)

From Stdlib Require Import ZArith List String Ascii Lia Bool Arith.
From Stdlib Require Import DecimalString.
Import ListNotations.

Local Open Scope Z_scope.

(** ** Machine integers *)

Module Int.

Definition UINT32_MOD : Z := 2 ^ 32.
Definition UINT64_MOD : Z := 2 ^ 64.
Definition INT32_MIN : Z := - 2 ^ 31.
Definition INT32_MAX : Z := 2 ^ 31 - 1.
Definition INT64_MIN : Z := - 2 ^ 63.
Definition INT64_MAX : Z := 2 ^ 63 - 1.
Definition SIZE_MAX : Z := 2 ^ 64 - 1.

(** Conversion to [uint32_t], [size_t] (64 bits) and the signed types:
    reduction modulo the width, re-centred for the signed ones. *)
Definition to_uint32 (x : Z) : Z := x mod UINT32_MOD.
Definition to_size_t (x : Z) : Z := x mod UINT64_MOD.
Definition to_int64 (x : Z) : Z :=
  let u := x mod UINT64_MOD in
  if u <=? INT64_MAX then u else u - UINT64_MOD.
Definition to_int32 (x : Z) : Z :=
  let u := x mod UINT32_MOD in
  if u <=? INT32_MAX then u else u - UINT32_MOD.

Definition is_int32 (x : Z) : Prop := INT32_MIN <= x <= INT32_MAX.
Definition is_int64 (x : Z) : Prop := INT64_MIN <= x <= INT64_MAX.
Definition is_uint32 (x : Z) : Prop := 0 <= x < UINT32_MOD.

End Int.

(** ** C strings and [printf]-style formatting *)

Module Fmt.

Local Open Scope string_scope.

(** The line feed the source writes as a backslash followed by n. *)
Definition LF : string := String (ascii_of_nat 10) EmptyString.

(** Decimal rendering of a non-negative number. *)
Definition decimal (n : Z) : string :=
  NilZero.string_of_uint (N.to_uint (Z.to_N n)).

(** The variadic arguments the call sites of [NapiThrowError] pass. *)
Inductive printf_arg : Type :=
| ArgString (s : string)      (* consumed by %s  *)
| ArgUnsigned (n : Z)         (* consumed by %u  *)
| ArgSize (n : Z).            (* consumed by %zu *)

(** Expansion of a format string.  Only the conversions that occur in
    [utils.h] are interpreted ([%s], [%u], [%zu]); a conversion whose
    argument is missing or of another kind expands to nothing. *)
Fixpoint format (fmt : string) (args : list printf_arg) : string :=
  match fmt with
  | EmptyString => EmptyString
  | String "%" (String "s" rest) =>
      match args with
      | ArgString s :: args' => s ++ format rest args'
      | _ :: args' => format rest args'
      | [] => format rest []
      end
  | String "%" (String "u" rest) =>
      match args with
      | ArgUnsigned n :: args' => decimal (Int.to_uint32 n) ++ format rest args'
      | _ :: args' => format rest args'
      | [] => format rest []
      end
  | String "%" (String "z" (String "u" rest)) =>
      match args with
      | ArgSize n :: args' => decimal (Int.to_size_t n) ++ format rest args'
      | _ :: args' => format rest args'
      | [] => format rest []
      end
  | String c rest => String c (format rest args)
  end.

(** [std::vsnprintf(buffer, size, fmt, args)]: the expansion cut to
    [size - 1] characters (the last byte of the buffer holds the
    terminator). *)
Definition vsnprintf (size : nat) (fmt : string) (args : list printf_arg)
  : string :=
  substring 0 (size - 1) (format fmt args).

(** [sub] occurs in [s]. *)
Definition occurs_in (sub s : string) : Prop :=
  exists pre post, s = pre ++ sub ++ post.

(** Boolean test for the same. *)
Definition occursb (sub s : string) : bool :=
  match index 0 sub s with Some _ => true | None => false end.

End Fmt.

(** ** The managed environment (N-API) *)

(** [napi_status], as far as the binding and the runtime's error table
    distinguish its values. *)
Inductive napi_status : Type :=
| napi_ok
| napi_invalid_arg
| napi_object_expected
| napi_string_expected
| napi_name_expected
| napi_function_expected
| napi_number_expected
| napi_boolean_expected
| napi_array_expected
| napi_generic_failure
| napi_pending_exception
| napi_cancelled
| napi_escape_called_twice.

Definition napi_status_eqb (a b : napi_status) : bool :=
  match a, b with
  | napi_ok, napi_ok
  | napi_invalid_arg, napi_invalid_arg
  | napi_object_expected, napi_object_expected
  | napi_string_expected, napi_string_expected
  | napi_name_expected, napi_name_expected
  | napi_function_expected, napi_function_expected
  | napi_number_expected, napi_number_expected
  | napi_boolean_expected, napi_boolean_expected
  | napi_array_expected, napi_array_expected
  | napi_generic_failure, napi_generic_failure
  | napi_pending_exception, napi_pending_exception
  | napi_cancelled, napi_cancelled
  | napi_escape_called_twice, napi_escape_called_twice => true
  | _, _ => false
  end.

Inductive napi_valuetype : Type :=
| napi_undefined
| napi_null
| napi_boolean
| napi_number
| napi_string
| napi_symbol
| napi_object
| napi_function
| napi_external
| napi_bigint.

Definition napi_valuetype_eqb (a b : napi_valuetype) : bool :=
  match a, b with
  | napi_undefined, napi_undefined
  | napi_null, napi_null
  | napi_boolean, napi_boolean
  | napi_number, napi_number
  | napi_string, napi_string
  | napi_symbol, napi_symbol
  | napi_object, napi_object
  | napi_function, napi_function
  | napi_external, napi_external
  | napi_bigint, napi_bigint => true
  | _, _ => false
  end.

(** The boundary calls [utils.h] makes.  Each returns its status together
    with what it stores through its output pointer; reading a value does not
    change the managed heap, so a call is a function of its arguments.
    - [napi_get_value_string_utf8 v None] is the call with a null buffer
      (length query); [Some n] is the call with a buffer of [n] bytes, and the
      string returned is what the runtime writes before the terminator;
    - [napi_get_new_target] yields [None] for a null [new.target];
    - [napi_error_message st] is the [error_message] field that
      [napi_get_last_error_info] reports when the last call ended with [st]
      ([None] for a null pointer). *)
Record NodeApi (napi_value napi_callback_info : Type) : Type := mkNodeApi {
  napi_typeof : napi_value -> napi_status * napi_valuetype;
  napi_is_array : napi_value -> napi_status * bool;
  napi_is_typedarray : napi_value -> napi_status * bool;
  napi_get_array_length : napi_value -> napi_status * Z;
  napi_get_element : napi_value -> Z -> napi_status * napi_value;
  napi_get_value_int64 : napi_value -> napi_status * Z;
  napi_get_value_string_utf8 :
    napi_value -> option Z -> napi_status * (string * Z);
  napi_get_new_target : napi_callback_info -> napi_status * option napi_value;
  napi_throw_error : string -> napi_status;
  napi_error_message : napi_status -> option string
}.

Arguments napi_typeof {_ _} _ _.
Arguments napi_is_array {_ _} _ _.
Arguments napi_is_typedarray {_ _} _ _.
Arguments napi_get_array_length {_ _} _ _.
Arguments napi_get_element {_ _} _ _ _.
Arguments napi_get_value_int64 {_ _} _ _.
Arguments napi_get_value_string_utf8 {_ _} _ _ _.
Arguments napi_get_new_target {_ _} _ _.
Arguments napi_throw_error {_ _} _ _.
Arguments napi_error_message {_ _} _ _.

(** ** Program state *)

(** A block of the C heap handed out by [malloc]: its size in bytes and the
    characters stored in it so far. *)
Record block : Type := mkBlock {
  block_size : Z;
  block_bytes : string
}.

(** What the helpers read and write besides their arguments:
    - [last_status]: the status of the most recent boundary call, which
      [napi_get_last_error_info] reports on;
    - [thrown]: the messages handed to [napi_throw_error], oldest first;
    - [stderr]: the lines [DEBUG_LOG] printed;
    - [heap]: the live [malloc] blocks, by address; [next_addr] is the next
      address handed out and [mem_avail] the bytes [malloc] can still grant. *)
Record World : Type := mkWorld {
  last_status : napi_status;
  thrown : list string;
  stderr : list string;
  heap : list (nat * block);
  next_addr : nat;
  mem_avail : Z
}.

Definition set_last_status (st : napi_status) (w : World) : World :=
  mkWorld st (thrown w) (stderr w) (heap w) (next_addr w) (mem_avail w).

Definition add_thrown (msg : string) (w : World) : World :=
  mkWorld (last_status w) (thrown w ++ [msg]) (stderr w) (heap w)
          (next_addr w) (mem_avail w).

Definition add_stderr (line : string) (w : World) : World :=
  mkWorld (last_status w) (thrown w) (stderr w ++ [line]) (heap w)
          (next_addr w) (mem_avail w).

Definition set_heap (h : list (nat * block)) (n : nat) (avail : Z) (w : World)
  : World :=
  mkWorld (last_status w) (thrown w) (stderr w) h n avail.

(** State-passing computations over [World]. *)
Definition M (A : Type) : Type := World -> A * World.

Definition ret {A : Type} (a : A) : M A := fun w => (a, w).

Definition bind {A B : Type} (c : M A) (k : A -> M B) : M B :=
  fun w => let (a, w') := c w in k a w'.

Declare Scope monad_scope.
Delimit Scope monad_scope with monad.
Notation "x <- c ;; k" := (bind c (fun x => k))
  (at level 61, c at next level, right associativity) : monad_scope.
Notation "c ;;; k" := (bind c (fun _ => k))
  (at level 61, right associativity) : monad_scope.

(** A boundary call: its result, and the status left for
    [napi_get_last_error_info]. *)
Definition napi_call {A : Type} (r : napi_status * A) : M (napi_status * A) :=
  fun w => (r, set_last_status (fst r) w).

(** [malloc]: a fresh block, or the null pointer ([None]) when the request
    exceeds what is available. *)
Definition malloc (size : Z) : M (option nat) :=
  fun w =>
    if size <=? mem_avail w then
      (Some (next_addr w),
       set_heap (heap w ++ [(next_addr w, mkBlock size EmptyString)])
                (S (next_addr w)) (mem_avail w - size) w)
    else (None, w).

Definition block_at (p : nat) (h : list (nat * block)) : option block :=
  match find (fun e => Nat.eqb (fst e) p) h with
  | Some e => Some (snd e)
  | None => None
  end.

(** [free]: the block leaves the heap and its bytes become available. *)
Definition free (p : nat) : M unit :=
  fun w =>
    match block_at p (heap w) with
    | Some b =>
        (tt, set_heap (filter (fun e => negb (Nat.eqb (fst e) p)) (heap w))
                      (next_addr w) (mem_avail w + block_size b) w)
    | None => (tt, w)
    end.

(** The runtime writing [bytes] into the block at [p]. *)
Definition store (p : nat) (bytes : string) : M unit :=
  fun w =>
    (tt, set_heap (map (fun e => if Nat.eqb (fst e) p
                                 then (fst e, mkBlock (block_size (snd e)) bytes)
                                 else e) (heap w))
                  (next_addr w) (mem_avail w) w).

(** The characters of the block at [p]. *)
Definition load (p : nat) : M string :=
  fun w =>
    (match block_at p (heap w) with
     | Some b => block_bytes b
     | None => EmptyString
     end, w).

(** ** The native runtime (TensorFlow C API) *)

(** [TF_Code] with the numbers the C header gives its enumerators. *)
Inductive TF_Code : Type :=
| TF_OK
| TF_CANCELLED
| TF_UNKNOWN
| TF_INVALID_ARGUMENT
| TF_DEADLINE_EXCEEDED
| TF_NOT_FOUND
| TF_ALREADY_EXISTS
| TF_PERMISSION_DENIED
| TF_UNAUTHENTICATED
| TF_RESOURCE_EXHAUSTED
| TF_FAILED_PRECONDITION
| TF_ABORTED
| TF_OUT_OF_RANGE
| TF_UNIMPLEMENTED
| TF_INTERNAL
| TF_UNAVAILABLE
| TF_DATA_LOSS.

Definition TF_Code_value (c : TF_Code) : Z :=
  match c with
  | TF_OK => 0
  | TF_CANCELLED => 1
  | TF_UNKNOWN => 2
  | TF_INVALID_ARGUMENT => 3
  | TF_DEADLINE_EXCEEDED => 4
  | TF_NOT_FOUND => 5
  | TF_ALREADY_EXISTS => 6
  | TF_PERMISSION_DENIED => 7
  | TF_UNAUTHENTICATED => 16
  | TF_RESOURCE_EXHAUSTED => 8
  | TF_FAILED_PRECONDITION => 9
  | TF_ABORTED => 10
  | TF_OUT_OF_RANGE => 11
  | TF_UNIMPLEMENTED => 12
  | TF_INTERNAL => 13
  | TF_UNAVAILABLE => 14
  | TF_DATA_LOSS => 15
  end.

Definition TF_Code_eqb (a b : TF_Code) : bool :=
  TF_Code_value a =? TF_Code_value b.

(** A [TF_Status] and the wrapper [TF_AutoStatus] that owns one. *)
Record TF_Status : Type := mkStatus {
  TF_GetCode : TF_Code;
  TF_Message : string
}.

Module AutoStatus.

Record TF_AutoStatus : Type := mkAutoStatus {
  status : TF_Status
}.

End AutoStatus.

Export AutoStatus.

Inductive TF_DataType : Type :=
| TF_FLOAT
| TF_INT32.

(** Who releases a tensor's buffer: the runtime's own allocator (tensors
    from [TF_AllocateTensor]) or a callback registered with [TF_NewTensor]. *)
Inductive deallocator : Type :=
| RuntimeDeallocator
| Int32Deallocator
| Float32Deallocator.

(** A tensor: element type, dimensions and data buffer (bytes, as numbers
    in [0, 256)). *)
Record TF_Tensor : Type := mkTensor {
  tensor_dtype : TF_DataType;
  tensor_dims : list Z;
  tensor_data : list Z;
  tensor_dealloc : deallocator
}.

Definition TF_NumDims (t : TF_Tensor) : Z := Z.of_nat (List.length (tensor_dims t)).
Definition TF_Dim (t : TF_Tensor) (i : Z) : Z := nth (Z.to_nat i) (tensor_dims t) 0.
Definition TF_TensorData (t : TF_Tensor) : list Z := tensor_data t.

(** [TF_AllocateTensor(dtype, dims, num_dims, len)]: a tensor of the given
    dimensions over a fresh buffer of [len] bytes.  The buffer is not
    initialised: [fill] gives the byte found at each offset. *)
Definition TF_AllocateTensor (fill : nat -> Z) (dtype : TF_DataType)
    (dims : list Z) (num_dims : Z) (len : Z) : TF_Tensor :=
  mkTensor dtype (firstn (Z.to_nat num_dims) dims)
           (map fill (seq 0 (Z.to_nat len))) RuntimeDeallocator.

(** [TF_NewTensor(dtype, dims, num_dims, data, len, deallocator, arg)]: a
    tensor over the caller's buffer, of which it takes [len] bytes. *)
Definition TF_NewTensor (dtype : TF_DataType) (dims : list Z) (num_dims : Z)
    (data : list Z) (len : Z) (d : deallocator) : TF_Tensor :=
  mkTensor dtype (firstn (Z.to_nat num_dims) dims)
           (firstn (Z.to_nat len) data) d.

(** ** Memory images of [int32_t] arrays *)

Module Mem.

(** The four bytes of an [int32_t], least significant first. *)
Definition bytes_of_int32 (v : Z) : list Z :=
  let u := Int.to_uint32 v in
  [u mod 256; (u / 256) mod 256; (u / 65536) mod 256; (u / 16777216) mod 256].

Definition bytes_of_int32s (vs : list Z) : list Z :=
  flat_map bytes_of_int32 vs.

(** Reading a buffer back as [int32_t] elements; trailing bytes that do not
    make up an element are ignored. *)
Fixpoint int32s_of_bytes (bs : list Z) : list Z :=
  match bs with
  | b0 :: b1 :: b2 :: b3 :: rest =>
      Int.to_int32 (b0 + 256 * b1 + 65536 * b2 + 16777216 * b3)
        :: int32s_of_bytes rest
  | _ => []
  end.

(** [memcpy(dst, src, n)]: the first [n] bytes of [dst] replaced by those of
    [src]; [None] when either buffer is shorter than [n] (the copy would run
    outside it). *)
Definition memcpy (dst src : list Z) (n : Z) : option (list Z) :=
  if (n <=? Z.of_nat (List.length src)) && (n <=? Z.of_nat (List.length dst))
  then Some (firstn (Z.to_nat n) src ++ skipn (Z.to_nat n) dst)
  else None.

End Mem.

(** ** [utils.h]: tensor helpers *)

Definition sizeof_int32_t : Z := 4.

(** [GetTensorNumElements]: the product of the dimensions, in [size_t]. *)
Fixpoint GetTensorNumElements_loop (n : nat) (i : Z) (tensor : TF_Tensor)
    (ret : Z) : Z :=
  match n with
  | O => ret
  | S n' =>
      GetTensorNumElements_loop n' (i + 1) tensor
        (Int.to_size_t (ret * Int.to_size_t (TF_Dim tensor i)))
  end.

Definition GetTensorNumElements (tensor : TF_Tensor) : Z :=
  GetTensorNumElements_loop (Z.to_nat (TF_NumDims tensor)) 0 tensor 1.

(** The loop of [Int32Tensor]: [num_values *= dims[i]] in [int64_t];
    [None] when [dims] has no element [i]. *)
Fixpoint Int32Tensor_loop (n : nat) (i : Z) (dims : list Z) (num_values : Z)
  : option Z :=
  match n with
  | O => Some num_values
  | S n' =>
      match nth_error dims (Z.to_nat i) with
      | Some d => Int32Tensor_loop n' (i + 1) dims (Int.to_int64 (num_values * d))
      | None => None
      end
  end.

(** [Int32Tensor(dims, num_dims, values)].  [dims] and [values] are the
    arrays behind the two pointers; [None] stands for a read or a copy
    outside them. *)
Definition Int32Tensor (fill : nat -> Z) (dims : list Z) (num_dims : Z)
    (values : list Z) : option TF_Tensor :=
  match Int32Tensor_loop (Z.to_nat num_dims) 0 dims 1 with
  | None => None
  | Some num_values =>
      let len := Int.to_size_t (sizeof_int32_t * Int.to_size_t num_values) in
      let t := TF_AllocateTensor fill TF_INT32 dims num_dims len in
      match Mem.memcpy (TF_TensorData t) (Mem.bytes_of_int32s values) len with
      | Some data =>
          Some (mkTensor (tensor_dtype t) (tensor_dims t) data (tensor_dealloc t))
      | None => None
      end
  end.

(** [Int32Tensor(const std::vector<int32_t>& values)]. *)
Definition Int32Tensor_vector (fill : nat -> Z) (values : list Z)
  : option TF_Tensor :=
  let dims := Z.of_nat (List.length values) in
  Int32Tensor fill [dims] 1 values.

(** [Int32Tensor(int32_t v)]. *)
Definition Int32Tensor_scalar (v : Z) : TF_Tensor :=
  let num_bytes := sizeof_int32_t in
  let values := Mem.bytes_of_int32s [v] in
  TF_NewTensor TF_INT32 [] 0 values num_bytes Int32Deallocator.

(** The elements of an [int32] tensor, read from its buffer. *)
Definition tensor_int32_elements (t : TF_Tensor) : list Z :=
  Mem.int32s_of_bytes (TF_TensorData t).

(** ** [utils.h]: raising errors, status translators, validators *)

Section Binding.

Import Fmt.
Local Open Scope string_scope.
Local Open Scope Z_scope.
Local Open Scope monad_scope.

Variables napi_value napi_callback_info : Type.

(** The runtime behind the [napi_env] handle. *)
Variable env : NodeApi napi_value napi_callback_info.

(** The build-time [DEBUG] flag and the expansion of [__FILE__]. *)
Variable DEBUG : bool.
Variable FILE__ : string.

(** [DEBUG_LOG(message, file, line_number)]. *)
Definition DEBUG_LOG (message file : string) (line_number : Z) : M unit :=
  fun w =>
    if DEBUG
    then (tt, add_stderr
                (format ("** -%s:%zu" ++ LF ++ "-- %s" ++ LF)
                        [ArgString file; ArgSize line_number; ArgString message])
                w)
    else (tt, w).

(** [NapiThrowError(env, file, line_number, message, ...)]. *)
Definition NapiThrowError (file : string) (line_number : Z) (message : string)
    (args : list printf_arg) : M unit :=
  let buffer := vsnprintf 500 message args in
  DEBUG_LOG buffer file line_number ;;;
  (fun w => (tt, set_last_status (napi_throw_error env buffer)
                                  (add_thrown buffer w))).

(** [napi_get_last_error_info(env, &error_info)], then
    [error_info->error_message]. *)
Definition napi_get_last_error_info : M (option string) :=
  fun w => (napi_error_message env (last_status w), w).

(** The macros [ENSURE_..._RETVAL(env, x, retval)], all of the shape
    [if (!Ensure...(env, x, __FILE__, __LINE__)) return retval;]
    followed by the rest [k] of the function body. *)
Definition return_unless {A : Type} (check : M bool) (retval : A) (k : M A)
  : M A :=
  ok <- check ;; if ok then k else ret retval.

Definition EnsureNapiOK (status : napi_status) (file : string)
    (line_number : Z) : M bool :=
  (if negb (napi_status_eqb status napi_ok) then
     error_message <- napi_get_last_error_info ;;
     NapiThrowError file line_number ("Invalid napi_status: %s" ++ LF)
       [ArgString (match error_message with
                   | Some m => m
                   | None => "unknown"
                   end)]
   else ret tt) ;;;
  ret (napi_status_eqb status napi_ok).

Definition ENSURE_NAPI_OK_RETVAL {A : Type} (status : napi_status)
    (line : Z) (retval : A) (k : M A) : M A :=
  return_unless (EnsureNapiOK status FILE__ line) retval k.

Definition EnsureTFOK (status : TF_AutoStatus) (file : string)
    (line_number : Z) : M bool :=
  let tf_code := TF_GetCode (AutoStatus.status status) in
  (if negb (TF_Code_eqb tf_code TF_OK) then
     NapiThrowError file line_number
       ("Invalid TF_Status: %u" ++ LF ++ "Message: %s")
       [ArgUnsigned (TF_Code_value (TF_GetCode (AutoStatus.status status)));
        ArgString (TF_Message (AutoStatus.status status))]
   else ret tt) ;;;
  ret (TF_Code_eqb tf_code TF_OK).

Definition EnsureConstructorCall (info : napi_callback_info) (file : string)
    (line_number : Z) : M bool :=
  r <- napi_call (napi_get_new_target env info) ;;
  let nstatus := fst r in
  let js_target := snd r in
  ENSURE_NAPI_OK_RETVAL nstatus 102 false (
    let is_target := match js_target with Some _ => true | None => false end in
    (if negb is_target then
       NapiThrowError file line_number "Function not used as a constructor!" []
     else ret tt) ;;;
    ret is_target).

Definition ENSURE_CONSTRUCTOR_CALL_RETVAL {A : Type}
    (info : napi_callback_info) (line : Z) (retval : A) (k : M A) : M A :=
  return_unless (EnsureConstructorCall info FILE__ line) retval k.

Definition ENSURE_CONSTRUCTOR_CALL (info : napi_callback_info) (line : Z)
    (k : M unit) : M unit :=
  ENSURE_CONSTRUCTOR_CALL_RETVAL info line tt k.

Definition EnsureValueIsObject (value : napi_value) (file : string)
    (line_number : Z) : M bool :=
  r <- napi_call (napi_typeof env value) ;;
  ENSURE_NAPI_OK_RETVAL (fst r) 119 false (
    let is_object := napi_valuetype_eqb (snd r) napi_object in
    (if negb is_object then
       NapiThrowError file line_number "Argument is not an object!" []
     else ret tt) ;;;
    ret is_object).

Definition EnsureValueIsString (value : napi_value) (file : string)
    (line_number : Z) : M bool :=
  r <- napi_call (napi_typeof env value) ;;
  ENSURE_NAPI_OK_RETVAL (fst r) 135 false (
    let is_string := napi_valuetype_eqb (snd r) napi_string in
    (if negb is_string then
       NapiThrowError file line_number "Argument is not a string!" []
     else ret tt) ;;;
    ret is_string).

Definition EnsureValueIsNumber (value : napi_value) (file : string)
    (line_number : Z) : M bool :=
  r <- napi_call (napi_typeof env value) ;;
  ENSURE_NAPI_OK_RETVAL (fst r) 151 false (
    let is_number := napi_valuetype_eqb (snd r) napi_number in
    (if negb is_number then
       NapiThrowError file line_number "Argument is not a string!" []
     else ret tt) ;;;
    ret is_number).

Definition EnsureValueIsArray (value : napi_value) (file : string)
    (line_number : Z) : M bool :=
  r <- napi_call (napi_is_array env value) ;;
  ENSURE_NAPI_OK_RETVAL (fst r) 167 false (
    let is_array := snd r in
    (if negb is_array then
       NapiThrowError file line_number "Argument is not an array!" []
     else ret tt) ;;;
    ret is_array).

Definition EnsureValueIsTypedArray (value : napi_value) (file : string)
    (line_number : Z) : M bool :=
  r <- napi_call (napi_is_typedarray env value) ;;
  ENSURE_NAPI_OK_RETVAL (fst r) 183 false (
    let is_array := snd r in
    (if negb is_array then
       NapiThrowError file line_number "Argument is not a typed-array!" []
     else ret tt) ;;;
    ret is_array).

Definition EnsureValueIsLessThan (value max : Z) (file : string)
    (line_number : Z) : M bool :=
  if max <? value then
    NapiThrowError file line_number "Argument is greater than max: %u > %u"
      [ArgUnsigned value; ArgUnsigned max] ;;;
    ret false
  else ret true.

(** A pointer is [None] when null. *)
Definition EnsureValueIsNotNull (value : option nat) (file : string)
    (line_number : Z) : M bool :=
  let is_null := match value with None => true | Some _ => false end in
  (if is_null then NapiThrowError file line_number "Argument is null!" []
   else ret tt) ;;;
  ret (negb is_null).

(** ** [utils.h]: shapes and strings *)

(** The body of the [for] loop of [ExtractArrayShape], run [n] more times
    from index [i].  The vector behind [result] is passed in and handed
    back; an early [return] hands back what has been pushed so far. *)
Fixpoint ExtractArrayShape_loop (n : nat) (i : Z) (array_value : napi_value)
    (result : list Z) : M (list Z) :=
  match n with
  | O => ret result
  | S n' =>
      r <- napi_call (napi_get_element env array_value i) ;;
      let dimension_value := snd r in
      ENSURE_NAPI_OK_RETVAL (fst r) 247 result (
        d <- napi_call (napi_get_value_int64 env dimension_value) ;;
        let dimension := snd d in
        ENSURE_NAPI_OK_RETVAL (fst d) 251 result (
          ExtractArrayShape_loop n' (i + 1) array_value (result ++ [dimension])))
  end.

Definition ExtractArrayShape (array_value : napi_value) (result : list Z)
  : M (list Z) :=
  r <- napi_call (napi_get_array_length env array_value) ;;
  let array_length := snd r in
  ENSURE_NAPI_OK_RETVAL (fst r) 242 result (
    ExtractArrayShape_loop (Z.to_nat array_length) 0 array_value result).

(** [GetStringParam(env, string_value, string)]: the status, and the
    contents of [string] on return ([str] on entry). *)
Definition GetStringParam (string_value : napi_value) (str : string)
  : M (napi_status * string) :=
  return_unless (EnsureValueIsString string_value FILE__ 280)
                (napi_invalid_arg, str) (
    r <- napi_call (napi_get_value_string_utf8 env string_value None) ;;
    let nstatus := fst r in
    let str_length := snd (snd r) in
    ENSURE_NAPI_OK_RETVAL nstatus 287 (nstatus, str) (
      buffer <- malloc (Int.to_size_t (1 * (str_length + 1))) ;;
      return_unless (EnsureValueIsNotNull buffer FILE__ 290)
                    (napi_generic_failure, str) (
        match buffer with
        | None => ret (napi_generic_failure, str)
        | Some p =>
            r <- napi_call (napi_get_value_string_utf8 env string_value
                              (Some (str_length + 1))) ;;
            store p (fst (snd r)) ;;;
            let nstatus := fst r in
            let str_length := snd (snd r) in
            ENSURE_NAPI_OK_RETVAL nstatus 294 (nstatus, str) (
              bytes <- load p ;;
              let str := substring 0 (Z.to_nat str_length) bytes in
              free p ;;;
              ret (napi_ok, str))
        end))).

End Binding.

Arguments NapiThrowError {napi_value napi_callback_info}.
Arguments napi_get_last_error_info {napi_value napi_callback_info}.
Arguments EnsureNapiOK {napi_value napi_callback_info}.
Arguments ENSURE_NAPI_OK_RETVAL {napi_value napi_callback_info} env DEBUG FILE__ {A}.
Arguments EnsureTFOK {napi_value napi_callback_info}.
Arguments EnsureConstructorCall {napi_value napi_callback_info}.
Arguments ENSURE_CONSTRUCTOR_CALL_RETVAL {napi_value napi_callback_info} env DEBUG FILE__ {A}.
Arguments ENSURE_CONSTRUCTOR_CALL {napi_value napi_callback_info}.
Arguments EnsureValueIsObject {napi_value napi_callback_info}.
Arguments EnsureValueIsString {napi_value napi_callback_info}.
Arguments EnsureValueIsNumber {napi_value napi_callback_info}.
Arguments EnsureValueIsArray {napi_value napi_callback_info}.
Arguments EnsureValueIsTypedArray {napi_value napi_callback_info}.
Arguments EnsureValueIsLessThan {napi_value napi_callback_info}.
Arguments EnsureValueIsNotNull {napi_value napi_callback_info}.
Arguments ExtractArrayShape_loop {napi_value napi_callback_info}.
Arguments ExtractArrayShape {napi_value napi_callback_info}.
Arguments GetStringParam {napi_value napi_callback_info}.

(** ** [utils.h]: the remaining helpers *)

Section BindingRest.

Import Fmt.
Local Open Scope string_scope.
Local Open Scope Z_scope.
Local Open Scope monad_scope.

Variables napi_value napi_callback_info : Type.
Variable env : NodeApi napi_value napi_callback_info.
Variable DEBUG : bool.
Variable FILE__ : string.

(** The outcome of [napi_is_exception_pending(env, &has_exception)]: its
    status and the flag it stores, [None] when it stores nothing. *)
Variable napi_is_exception_pending : napi_status * option bool.

Definition IsExceptionPending : M bool :=
  let has_exception := false in
  r <- napi_call napi_is_exception_pending ;;
  let has_exception := match snd r with
                       | Some b => b
                       | None => has_exception
                       end in
  ENSURE_NAPI_OK_RETVAL env DEBUG FILE__ (fst r) 259 has_exception
    (ret has_exception).

(** The three reporters; [type] is the number of the enumerator passed. *)
Definition ReportUnknownTFDataType (type : Z) (file : string)
    (line_number : Z) : M unit :=
  NapiThrowError env DEBUG file line_number ("Unhandled TF_DataType: %u" ++ LF)
    [ArgUnsigned type].

Definition ReportUnknownTFAttrType (type : Z) (file : string)
    (line_number : Z) : M unit :=
  NapiThrowError env DEBUG file line_number ("Unhandled TF_AttrType: %u" ++ LF)
    [ArgUnsigned type].

Definition ReportUnknownTypedArrayType (type : Z) (file : string)
    (line_number : Z) : M unit :=
  NapiThrowError env DEBUG file line_number
    "Unhandled napi typed_array_type: %u" [ArgUnsigned type].

(** The common shape of the three validators that ask [napi_typeof], and
    of the two that ask a yes/no question: the line of their status check,
    what they accept and the text they raise otherwise. *)
Definition typeof_check (expected : napi_valuetype) (check_line : Z)
    (text : string) (value : napi_value) (file : string) (line_number : Z)
  : M bool :=
  r <- napi_call (napi_typeof env value) ;;
  ENSURE_NAPI_OK_RETVAL env DEBUG FILE__ (fst r) check_line false (
    let accepted := napi_valuetype_eqb (snd r) expected in
    (if negb accepted then NapiThrowError env DEBUG file line_number text []
     else ret tt) ;;;
    ret accepted).

Definition question_check (question : napi_value -> napi_status * bool)
    (check_line : Z) (text : string) (value : napi_value) (file : string)
    (line_number : Z) : M bool :=
  r <- napi_call (question value) ;;
  ENSURE_NAPI_OK_RETVAL env DEBUG FILE__ (fst r) check_line false (
    let accepted := snd r in
    (if negb accepted then NapiThrowError env DEBUG file line_number text []
     else ret tt) ;;;
    ret accepted).

End BindingRest.

Arguments IsExceptionPending {napi_value napi_callback_info}.
Arguments ReportUnknownTFDataType {napi_value napi_callback_info}.
Arguments ReportUnknownTFAttrType {napi_value napi_callback_info}.
Arguments ReportUnknownTypedArrayType {napi_value napi_callback_info}.
Arguments typeof_check {napi_value napi_callback_info}.
Arguments question_check {napi_value napi_callback_info}.

(** ** [utils.h]: [split] *)

Module Split.

Local Open Scope string_scope.
Local Open Scope nat_scope.

Definition comma : ascii := ","%char.

(** [str.find(c, prev)]: the first position at or after [prev] that holds
    [c]; [None] is [std::string::npos]. *)
Fixpoint find (str : string) (c : ascii) (prev : nat) : option nat :=
  match str with
  | EmptyString => None
  | String a rest =>
      match prev with
      | O => if Ascii.eqb a c then Some O else option_map S (find rest c O)
      | S prev' => option_map S (find rest c prev')
      end
  end.

(** [str.substr(pos, n)]; [None] when it throws [std::out_of_range]
    ([pos] beyond the end). *)
Definition substr (str : string) (pos n : nat) : option string :=
  if pos <=? String.length str then Some (substring pos n str) else None.

Definition empty (s : string) : bool :=
  match s with EmptyString => true | _ => false end.

(** One run of the [do ... while] body per unit of [fuel]; [None] when
    [substr] throws or the fuel is used up. *)
Fixpoint split_loop (fuel : nat) (str : string) (prev : nat)
    (tokens : list string) : option (list string) :=
  match fuel with
  | O => None
  | S fuel' =>
      let pos := match find str comma prev with
                 | None => String.length str
                 | Some p => p
                 end in
      match substr str prev (pos - prev) with
      | None => None
      | Some token =>
          let tokens := if negb (empty token) then (tokens ++ [token])%list
                        else tokens in
          let prev := pos + 1 in
          if (pos <? String.length str) && (prev <? String.length str)
          then split_loop fuel' str prev tokens
          else Some tokens
      end
  end.

(** [split(str)].  Every iteration moves [prev] forward, so one more
    iteration than the string has characters is never needed. *)
Definition split (str : string) : option (list string) :=
  split_loop (S (String.length str)) str 0 [].

(** The specification side: the maximal comma-free substrings of a string
    (what lies between consecutive commas and the two ends), and those of
    them that are not empty. *)
Fixpoint fields (s : string) : list string :=
  match s with
  | EmptyString => [EmptyString]
  | String c rest =>
      if Ascii.eqb c comma then EmptyString :: fields rest
      else match fields rest with
           | f :: fs => String c f :: fs
           | [] => [String c EmptyString]
           end
  end.

Definition nonempty_fields (s : string) : list string :=
  filter (fun t => negb (empty t)) (fields s).

(** What a field contributes to the result: itself unless it is empty. *)
Definition keep (tok : string) : list string :=
  if negb (empty tok) then [tok] else [].

(** No character of [s] is a comma. *)
Fixpoint comma_free (s : string) : bool :=
  match s with
  | EmptyString => true
  | String c rest => negb (Ascii.eqb c comma) && comma_free rest
  end.

(** The fields put back together with a comma between neighbours. *)
Fixpoint join (fs : list string) : string :=
  match fs with
  | [] => EmptyString
  | [f] => f
  | f :: fs' => f ++ String comma (join fs')
  end.

End Split.

(** ** A reference runtime *)

(** A small managed environment on which the definitions above can be run:
    values, and the boundary calls with the results the N-API documentation
    gives them. *)
Module Js.

Local Open Scope string_scope.

#[warnings="-register-all"]
Inductive value : Type :=
| Undefined
| Null
| Boolean (b : bool)
| Number (n : Z)
| Str (s : string)
| Object
| Function
| Array (elems : list value)
| TypedArray (elems : list Z).

(** A callback's [new.target]: [None] for a plain call. *)
Record callback_info : Type := mkInfo {
  new_target : option value
}.

Definition typeof (v : value) : napi_valuetype :=
  match v with
  | Undefined => napi_undefined
  | Null => napi_null
  | Boolean _ => napi_boolean
  | Number _ => napi_number
  | Str _ => napi_string
  | Function => napi_function
  | Object | Array _ | TypedArray _ => napi_object
  end.

Definition error_message (st : napi_status) : option string :=
  match st with
  | napi_ok => None
  | napi_invalid_arg => Some "Invalid argument"
  | napi_object_expected => Some "An object was expected"
  | napi_string_expected => Some "A string was expected"
  | napi_name_expected => Some "A string or symbol was expected"
  | napi_function_expected => Some "A function was expected"
  | napi_number_expected => Some "A number was expected"
  | napi_boolean_expected => Some "A boolean was expected"
  | napi_array_expected => Some "An array was expected"
  | napi_generic_failure => Some "Unknown failure"
  | napi_pending_exception => Some "An exception is pending"
  | napi_cancelled => Some "The async work item was cancelled"
  | napi_escape_called_twice => Some "napi_escape_handle already called on scope"
  end.

Definition get_value_string_utf8 (v : value) (bufsize : option Z)
  : napi_status * (string * Z) :=
  match v with
  | Str s =>
      match bufsize with
      | None => (napi_ok, (EmptyString, Z.of_nat (String.length s)))
      | Some n =>
          let copied := substring 0 (Z.to_nat (n - 1)) s in
          (napi_ok, (copied, Z.of_nat (String.length copied)))
      end
  | _ => (napi_string_expected, (EmptyString, 0))
  end.

Definition runtime : NodeApi value callback_info :=
  {| napi_typeof := fun v => (napi_ok, typeof v);
     napi_is_array := fun v =>
       (napi_ok, match v with Array _ => true | _ => false end);
     napi_is_typedarray := fun v =>
       (napi_ok, match v with TypedArray _ => true | _ => false end);
     napi_get_array_length := fun v =>
       match v with
       | Array elems => (napi_ok, Z.of_nat (List.length elems))
       | _ => (napi_array_expected, 0)
       end;
     napi_get_element := fun v i =>
       match v with
       | Array elems => (napi_ok, nth (Z.to_nat i) elems Undefined)
       | Object | Function | TypedArray _ => (napi_ok, Undefined)
       | _ => (napi_object_expected, Undefined)
       end;
     napi_get_value_int64 := fun v =>
       match v with
       | Number n => (napi_ok, Int.to_int64 n)
       | _ => (napi_number_expected, 0)
       end;
     napi_get_value_string_utf8 := get_value_string_utf8;
     napi_get_new_target := fun info => (napi_ok, new_target info);
     napi_throw_error := fun _ => napi_ok;
     napi_error_message := error_message |}.

(** The same runtime, except that copying a string into a caller's buffer
    reports [napi_generic_failure]. *)
Definition copy_failing_runtime : NodeApi value callback_info :=
  {| napi_typeof := napi_typeof runtime;
     napi_is_array := napi_is_array runtime;
     napi_is_typedarray := napi_is_typedarray runtime;
     napi_get_array_length := napi_get_array_length runtime;
     napi_get_element := napi_get_element runtime;
     napi_get_value_int64 := napi_get_value_int64 runtime;
     napi_get_value_string_utf8 := fun v bufsize =>
       match bufsize with
       | None => get_value_string_utf8 v None
       | Some _ => (napi_generic_failure, (EmptyString, 0))
       end;
     napi_get_new_target := napi_get_new_target runtime;
     napi_throw_error := napi_throw_error runtime;
     napi_error_message := napi_error_message runtime |}.

(** A state with nothing yet thrown, printed or allocated. *)
Definition initial_world : World :=
  mkWorld napi_ok [] [] [] 0 1024.

End Js.

(** A runtime in which an exception is pending: every boundary call that
    reads a value reports [napi_pending_exception]. *)
Module Pending.

Definition runtime : NodeApi Js.value Js.callback_info :=
  {| napi_typeof := fun _ => (napi_pending_exception, napi_undefined);
     napi_is_array := fun _ => (napi_pending_exception, false);
     napi_is_typedarray := fun _ => (napi_pending_exception, false);
     napi_get_array_length := fun _ => (napi_pending_exception, 0);
     napi_get_element := fun _ _ => (napi_pending_exception, Js.Undefined);
     napi_get_value_int64 := fun _ => (napi_pending_exception, 0);
     napi_get_value_string_utf8 := fun _ _ =>
       (napi_pending_exception, (EmptyString, 0));
     napi_get_new_target := fun _ => (napi_pending_exception, None);
     napi_throw_error := fun _ => napi_pending_exception;
     napi_error_message := Js.error_message |}.

(** A state in which only three bytes can still be allocated. *)
Definition low_memory : World :=
  mkWorld napi_ok [] [] [] 0 3.

End Pending.

(** ** Vocabulary of the statements *)

Module Spec.

Import Fmt.
Local Open Scope string_scope.

(** The product of a dimension sequence, as a mathematical integer. *)
Definition product (dims : list Z) : Z := fold_right Z.mul 1 dims.

(** A string of [n] copies of a character. *)
Fixpoint replicate (n : nat) (c : ascii) : string :=
  match n with
  | O => ""
  | S n' => String c (replicate n' c)
  end.

(** The message layout the specification gives for both status domains:
    the status kind, the code, a line feed, and the message after
    [Message: ]. *)
Definition uniform_format (kind code message : string) : string :=
  "Invalid " ++ kind ++ ": " ++ code ++ LF ++ "Message: " ++ message.

(** The text [EnsureNapiOK] formats in state [w]: the runtime's message for
    the last call, or [unknown] when it has none, and a line feed. *)
Definition napi_failure_text {V I : Type} (env : NodeApi V I) (w : World)
  : string :=
  "Invalid napi_status: "
  ++ match napi_error_message env (last_status w) with
     | Some m => m
     | None => "unknown"
     end ++ LF.

(** The managed array [arr] seen through the boundary: its element [i], that
    element coerced to a 64-bit integer, and whether both calls that
    extract it succeed. *)
Definition element_at {V I : Type} (env : NodeApi V I) (arr : V) (i : Z) : V :=
  snd (napi_get_element env arr i).

Definition coerced_at {V I : Type} (env : NodeApi V I) (arr : V) (i : Z) : Z :=
  snd (napi_get_value_int64 env (element_at env arr i)).

Definition extractable {V I : Type} (env : NodeApi V I) (arr : V) (i : Z)
  : Prop :=
  fst (napi_get_element env arr i) = napi_ok
  /\ fst (napi_get_value_int64 env (element_at env arr i)) = napi_ok.

(** The first [k] elements of [arr], coerced, starting at index [i]. *)
Definition coerced_from {V I : Type} (env : NodeApi V I) (arr : V) (i : Z)
    (k : nat) : list Z :=
  map (fun j => coerced_at env arr (i + Z.of_nat j)) (seq 0 k).

(** [w'] differs from [w] by exactly one more error raised, with message
    [msg]. *)
Definition raises (w w' : World) (msg : string) : Prop :=
  thrown w' = (thrown w ++ [msg])%list.

(** Nothing was allocated or released between [w] and [w']. *)
Definition same_heap (w w' : World) : Prop :=
  heap w' = heap w /\ next_addr w' = next_addr w /\ mem_avail w' = mem_avail w.

End Spec.

(** ** Concrete inputs *)

Module Inputs.

Import Spec.
Local Open Scope string_scope.

(** A state in which the last boundary call ended with
    [napi_array_expected]. *)
Definition after_array_expected : World :=
  mkWorld napi_array_expected [] [] [] 0 1024.

Definition not_found : TF_AutoStatus :=
  mkAutoStatus (mkStatus TF_NOT_FOUND "no such op").

(** A native-runtime status whose message is 600 characters long. *)
Definition long_message : string := replicate 600 "a".

Definition long_status : TF_AutoStatus :=
  mkAutoStatus (mkStatus TF_INVALID_ARGUMENT long_message).

End Inputs.

(** ** Contracts of the checks *)

Module Contracts.

Import Spec.
Local Open Scope string_scope.

(** What every [Ensure...] function owes its caller: it touches no memory,
    and it returns [false] exactly when it has raised one error (of at most
    499 characters); when it returns [true] nothing was raised. *)
Definition raises_iff_false (c : M bool) : Prop :=
  forall w,
    same_heap w (snd (c w))
    /\ if fst (c w)
       then thrown (snd (c w)) = thrown w
       else exists msg,
              raises w (snd (c w)) msg /\ (String.length msg <= 499)%nat.

(** The text raised when a boundary call ended with status [st]: what
    [EnsureNapiOK] formats from the runtime's message for [st], cut to the
    buffer. *)
Definition napi_text {V I : Type} (env : NodeApi V I) (st : napi_status)
  : string :=
  substring 0 499
    ("Invalid napi_status: "
     ++ match napi_error_message env st with
        | Some m => m
        | None => "unknown"
        end ++ Fmt.LF).

(** The number of commas in a string, and the total length of a list of
    strings. *)
Fixpoint count_commas (s : string) : nat :=
  match s with
  | EmptyString => 0%nat
  | String c rest =>
      ((if Ascii.eqb c Split.comma then 1 else 0) + count_commas rest)%nat
  end.

Definition total_length (ts : list string) : nat :=
  fold_right (fun t n => (String.length t + n)%nat) 0%nat ts.

End Contracts.

(** * Theorems *)

(** ** Machine integers and memory images *)

Module IntFacts.

Import Int.

Lemma to_size_t_small (x : Z) : 0 <= x <= SIZE_MAX -> to_size_t x = x.
Proof.
  unfold to_size_t, SIZE_MAX, UINT64_MOD. intros H.
  apply Z.mod_small. lia.
Qed.

Lemma to_size_t_to_int64 (x : Z) : to_size_t (to_int64 x) = to_size_t x.
Proof.
  unfold to_size_t, to_int64.
  destruct (x mod UINT64_MOD <=? INT64_MAX).
  - apply Z.mod_mod. unfold UINT64_MOD. lia.
  - replace (x mod UINT64_MOD - UINT64_MOD)
      with (x mod UINT64_MOD + (-1) * UINT64_MOD) by ring.
    rewrite Z.mod_add by (unfold UINT64_MOD; lia).
    apply Z.mod_mod. unfold UINT64_MOD. lia.
Qed.

Lemma to_size_t_mul_l (a b : Z) : to_size_t (to_size_t a * b) = to_size_t (a * b).
Proof.
  unfold to_size_t. apply Z.mul_mod_idemp_l. unfold UINT64_MOD. lia.
Qed.

Lemma to_size_t_mul_r (a b : Z) : to_size_t (a * to_size_t b) = to_size_t (a * b).
Proof.
  unfold to_size_t. apply Z.mul_mod_idemp_r. unfold UINT64_MOD. lia.
Qed.

(** Two values that agree as [size_t] agree as [int64_t]. *)
Lemma to_int64_congr (a b : Z) : to_size_t a = to_size_t b -> to_int64 a = to_int64 b.
Proof.
  unfold to_size_t, to_int64. intros ->. reflexivity.
Qed.

Lemma to_int32_to_uint32 (v : Z) : is_int32 v -> to_int32 (to_uint32 v) = v.
Proof.
  unfold is_int32, to_int32, to_uint32, INT32_MIN, INT32_MAX, UINT32_MOD.
  intros H. rewrite Z.mod_mod by lia.
  destruct (Z_lt_le_dec v 0) as [Hneg | Hpos].
  - replace (v mod 2 ^ 32) with (v + 2 ^ 32).
    + destruct (v + 2 ^ 32 <=? 2 ^ 31 - 1) eqn:E; [apply Z.leb_le in E |]; lia.
    + apply Z.mod_unique with (q := -1); lia.
  - rewrite Z.mod_small by lia.
    destruct (v <=? 2 ^ 31 - 1) eqn:E; [| apply Z.leb_gt in E]; lia.
Qed.

End IntFacts.

Module MemFacts.

Import Int Mem IntFacts.

(** An [int32_t] written to memory and read back is unchanged. *)
Lemma int32_bytes_roundtrip (v : Z) (rest : list Z) :
  is_int32 v ->
  int32s_of_bytes (bytes_of_int32 v ++ rest) = v :: int32s_of_bytes rest.
Proof.
  intros H. unfold bytes_of_int32. cbn [app int32s_of_bytes]. f_equal.
  rewrite <- (to_int32_to_uint32 v H) at 5.
  f_equal.
  assert (Hu : 0 <= to_uint32 v < 4294967296).
  { unfold to_uint32, UINT32_MOD. apply Z.mod_pos_bound. lia. }
  revert Hu. generalize (to_uint32 v). intros u Hu.
  Z.div_mod_to_equations. lia.
Qed.

Lemma int32s_roundtrip (vs : list Z) :
  Forall is_int32 vs -> int32s_of_bytes (bytes_of_int32s vs) = vs.
Proof.
  induction 1 as [| v vs Hv _ IH]; [reflexivity |].
  unfold bytes_of_int32s in *. cbn [flat_map].
  rewrite int32_bytes_roundtrip by assumption. now rewrite IH.
Qed.

Lemma bytes_of_int32s_length (vs : list Z) :
  List.length (bytes_of_int32s vs) = (4 * List.length vs)%nat.
Proof.
  induction vs as [| v vs IH]; [reflexivity |].
  unfold bytes_of_int32s in *. cbn [flat_map List.length app bytes_of_int32].
  rewrite IH. lia.
Qed.

(** The first [4 * n] bytes of an array image are the image of its first
    [n] elements. *)
Lemma firstn_bytes_of_int32s (n : nat) (vs : list Z) :
  firstn (4 * n) (bytes_of_int32s vs) = bytes_of_int32s (firstn n vs).
Proof.
  revert vs. induction n as [| n IH]; intros vs; [reflexivity |].
  destruct vs as [| v vs]; [reflexivity |].
  replace (4 * S n)%nat with (S (S (S (S (4 * n))))) by lia.
  unfold bytes_of_int32s in *. cbn [flat_map firstn app bytes_of_int32].
  now rewrite IH.
Qed.

Lemma Forall_firstn {A : Type} (P : A -> Prop) (n : nat) (l : list A) :
  Forall P l -> Forall P (firstn n l).
Proof.
  intros H. revert n. induction H as [| x l Hx _ IH]; intros [| n];
    cbn [firstn]; constructor; auto.
Qed.

End MemFacts.

(** ** Tensor helpers *)

Module TensorFacts.

Import Int Mem IntFacts MemFacts Spec.

Lemma product_nonneg (dims : list Z) :
  Forall (fun d => 0 <= d <= INT64_MAX) dims -> 0 <= product dims.
Proof.
  induction 1 as [| d dims Hd _ IH]; cbn [product fold_right]; [lia |].
  fold (product dims). nia.
Qed.

Lemma product_zero (dims : list Z) : In 0 dims -> product dims = 0.
Proof.
  induction dims as [| d dims IH]; cbn [In product fold_right]; [tauto |].
  fold (product dims). intros [-> | H]; [lia | rewrite (IH H); lia].
Qed.

(** The [int64_t] loop computes the product modulo [2^64]. *)
Lemma Int32Tensor_loop_spec (done rest : list Z) (acc : Z) :
  exists r,
    Int32Tensor_loop (List.length rest) (Z.of_nat (List.length done))
                     (done ++ rest) acc = Some r
    /\ to_size_t r = to_size_t (acc * product rest).
Proof.
  revert done acc. induction rest as [| d rest IH]; intros done acc.
  - exists acc. cbn [List.length Int32Tensor_loop product fold_right].
    split; [reflexivity | f_equal; ring].
  - cbn [List.length Int32Tensor_loop]. rewrite Nat2Z.id.
    rewrite nth_error_app2 by lia. rewrite Nat.sub_diag. cbn [nth_error].
    destruct (IH (done ++ [d]) (to_int64 (acc * d))) as (r & Hr & Hval).
    rewrite <- app_assoc, length_app in Hr. cbn [List.length app] in Hr.
    replace (Z.of_nat (List.length done + 1)) with (Z.of_nat (List.length done) + 1)
      in Hr by lia.
    exists r. split; [exact Hr |].
    rewrite Hval. cbn [product fold_right]. fold (product rest).
    rewrite <- to_size_t_mul_l, to_size_t_to_int64, to_size_t_mul_l.
    f_equal. ring.
Qed.

(** So does the [size_t] loop of [GetTensorNumElements]. *)
Lemma GetTensorNumElements_loop_spec (t : TF_Tensor) (done rest : list Z)
    (acc : Z) :
  tensor_dims t = done ++ rest ->
  to_size_t (GetTensorNumElements_loop (List.length rest)
               (Z.of_nat (List.length done)) t acc)
  = to_size_t (acc * product rest)
  /\ (acc = to_size_t acc ->
      GetTensorNumElements_loop (List.length rest)
        (Z.of_nat (List.length done)) t acc
      = to_size_t (acc * product rest)).
Proof.
  revert done acc. induction rest as [| d rest IH]; intros done acc Hd.
  - cbn [List.length GetTensorNumElements_loop product fold_right].
    rewrite Z.mul_1_r. split; [reflexivity | auto].
  - cbn [List.length GetTensorNumElements_loop].
    assert (Hdim : TF_Dim t (Z.of_nat (List.length done)) = d).
    { unfold TF_Dim. rewrite Nat2Z.id, Hd, app_nth2 by lia.
      now rewrite Nat.sub_diag. }
    rewrite Hdim.
    assert (Hd' : tensor_dims t = (done ++ [d]) ++ rest)
      by now rewrite <- app_assoc.
    destruct (IH (done ++ [d]) (to_size_t (acc * to_size_t d)) Hd') as [H1 H2].
    rewrite length_app in H1, H2. cbn [List.length] in H1, H2.
    replace (Z.of_nat (List.length done + 1)) with (Z.of_nat (List.length done) + 1)
      in H1, H2 by lia.
    assert (E : to_size_t (to_size_t (acc * to_size_t d) * product rest)
                = to_size_t (acc * product (d :: rest))).
    { rewrite to_size_t_mul_l. cbn [product fold_right]. fold (product rest).
      rewrite <- Z.mul_assoc, (Z.mul_comm (to_size_t d)).
      rewrite Z.mul_assoc, to_size_t_mul_r. f_equal. ring. }
    split.
    + now rewrite H1.
    + intros _. rewrite H2; [exact E |].
      unfold to_size_t. symmetry. apply Z.mod_mod. unfold UINT64_MOD. lia.
Qed.

Lemma GetTensorNumElements_product (t : TF_Tensor) :
  GetTensorNumElements t = to_size_t (product (tensor_dims t)).
Proof.
  unfold GetTensorNumElements, TF_NumDims. rewrite Nat2Z.id.
  destruct (GetTensorNumElements_loop_spec t [] (tensor_dims t) 1 eq_refl)
    as [_ H].
  cbn [List.length Z.of_nat] in H. rewrite H by reflexivity.
  f_equal. ring.
Qed.

End TensorFacts.

Module TensorTheorems.

Import Int Mem IntFacts MemFacts TensorFacts Spec.

(** C1. For a dimension sequence [dims] of non-negative dimensions with
    product [P], for which [P] values are supplied (and whose byte size
    [4 * P] is a [size_t]), [Int32Tensor(dims, num_dims, values)] returns a
    tensor; [GetTensorNumElements] gives [P] on it and its buffer holds the
    first [P] supplied values in order.  If a dimension is zero the tensor
    has zero elements and an empty buffer. *)
Theorem Int32Tensor_roundtrip (fill : nat -> Z) (dims values : list Z) :
  Forall (fun d => 0 <= d <= INT64_MAX) dims ->
  Forall is_int32 values ->
  product dims <= Z.of_nat (List.length values) ->
  sizeof_int32_t * product dims <= SIZE_MAX ->
  exists t,
    Int32Tensor fill dims (Z.of_nat (List.length dims)) values = Some t
    /\ GetTensorNumElements t = product dims
    /\ tensor_int32_elements t = firstn (Z.to_nat (product dims)) values
    /\ (In 0 dims ->
        GetTensorNumElements t = 0 /\ tensor_int32_elements t = []).
Proof.
  intros Hdims Hvals Hsupplied Hsize.
  pose proof (product_nonneg dims Hdims) as Hpos.
  unfold sizeof_int32_t in Hsize.
  unfold Int32Tensor. rewrite Nat2Z.id.
  destruct (Int32Tensor_loop_spec [] dims 1) as (r & Hr & Hval).
  cbn [List.length Z.of_nat app] in Hr. rewrite Hr.
  replace (1 * product dims) with (product dims) in Hval by ring.
  assert (Hlen : to_size_t (sizeof_int32_t * to_size_t r) = 4 * product dims).
  { rewrite Hval, to_size_t_mul_r. unfold sizeof_int32_t.
    apply to_size_t_small. lia. }
  rewrite Hlen.
  unfold memcpy, TF_TensorData, TF_AllocateTensor. cbn [tensor_data].
  rewrite length_map, length_seq, bytes_of_int32s_length.
  replace (4 * product dims <=? Z.of_nat (4 * List.length values)) with true
    by (symmetry; apply Z.leb_le; lia).
  replace (4 * product dims <=? Z.of_nat (Z.to_nat (4 * product dims)))
    with true by (symmetry; apply Z.leb_le; lia).
  cbn [andb]. rewrite ?Nat2Z.id. eexists. split; [reflexivity |].
  assert (Hnum : GetTensorNumElements
                   {| tensor_dtype := TF_INT32;
                      tensor_dims := firstn (List.length dims) dims;
                      tensor_data :=
                        firstn (Z.to_nat (4 * product dims)) (bytes_of_int32s values)
                        ++ skipn (Z.to_nat (4 * product dims))
                             (map fill (seq 0 (Z.to_nat (4 * product dims))));
                      tensor_dealloc := RuntimeDeallocator |}
                 = product dims).
  { rewrite GetTensorNumElements_product. cbn [tensor_dims].
    rewrite firstn_all. apply to_size_t_small. unfold SIZE_MAX in *. lia. }
  assert (Hdata : tensor_int32_elements
                   {| tensor_dtype := TF_INT32;
                      tensor_dims := firstn (List.length dims) dims;
                      tensor_data :=
                        firstn (Z.to_nat (4 * product dims)) (bytes_of_int32s values)
                        ++ skipn (Z.to_nat (4 * product dims))
                             (map fill (seq 0 (Z.to_nat (4 * product dims))));
                      tensor_dealloc := RuntimeDeallocator |}
                 = firstn (Z.to_nat (product dims)) values).
  { unfold tensor_int32_elements, TF_TensorData. cbn [tensor_data].
    rewrite skipn_all2 by (rewrite length_map, length_seq; lia).
    rewrite app_nil_r.
    replace (Z.to_nat (4 * product dims)) with (4 * Z.to_nat (product dims))%nat
      by lia.
    rewrite firstn_bytes_of_int32s. apply int32s_roundtrip.
    now apply Forall_firstn. }
  cbn [tensor_dtype tensor_dims tensor_dealloc].
  split; [exact Hnum |]. split; [exact Hdata |].
  intros Hzero. rewrite Hnum, Hdata, (product_zero dims Hzero).
  split; reflexivity.
Qed.

Lemma Int32Tensor_roundtrip_witness :
  exists t,
    Int32Tensor (fun _ => 170) [2; 3] 2 [1; -2; 3; 4; 5; 6; 7] = Some t
    /\ GetTensorNumElements t = 6
    /\ tensor_int32_elements t = [1; -2; 3; 4; 5; 6].
Proof.
  destruct (Int32Tensor_roundtrip (fun _ => 170) [2; 3] [1; -2; 3; 4; 5; 6; 7])
    as (t & Ht & Hn & Hd & _).
  - repeat constructor; unfold INT64_MAX; lia.
  - repeat constructor; unfold INT32_MIN, INT32_MAX; lia.
  - vm_compute. discriminate.
  - vm_compute. discriminate.
  - exists t. repeat split; assumption.
Defined.

(** C5. The scalar tensor built by [Int32Tensor(v)] has no dimensions,
    exactly one element by [GetTensorNumElements], and that element is
    [v]. *)
Theorem Int32Tensor_scalar_spec (v : Z) :
  is_int32 v ->
  TF_NumDims (Int32Tensor_scalar v) = 0
  /\ GetTensorNumElements (Int32Tensor_scalar v) = 1
  /\ tensor_int32_elements (Int32Tensor_scalar v) = [v].
Proof.
  intros Hv. split; [reflexivity |]. split; [reflexivity |].
  unfold tensor_int32_elements, Int32Tensor_scalar, TF_NewTensor, TF_TensorData.
  cbn [tensor_data]. unfold sizeof_int32_t.
  change (Z.to_nat 4) with 4%nat.
  unfold bytes_of_int32s. cbn [flat_map]. rewrite app_nil_r.
  unfold bytes_of_int32 at 1. cbn [firstn].
  change ([to_uint32 v mod 256; (to_uint32 v / 256) mod 256;
           (to_uint32 v / 65536) mod 256; (to_uint32 v / 16777216) mod 256])
    with (bytes_of_int32 v).
  rewrite <- (app_nil_r (bytes_of_int32 v)).
  now rewrite int32_bytes_roundtrip.
Qed.

Lemma Int32Tensor_scalar_spec_witness :
  GetTensorNumElements (Int32Tensor_scalar (-5)) = 1
  /\ tensor_int32_elements (Int32Tensor_scalar (-5)) = [-5].
Proof.
  destruct (Int32Tensor_scalar_spec (-5)) as (_ & Hn & He).
  - unfold is_int32, INT32_MIN, INT32_MAX. lia.
  - split; assumption.
Defined.

End TensorTheorems.

(** ** Strings and formatting *)

Module FmtFacts.

Import Fmt.
Local Open Scope string_scope.
Local Open Scope nat_scope.

Lemma length_append (a b : string) :
  String.length (a ++ b) = String.length a + String.length b.
Proof.
  induction a as [| c a IH]; cbn [append String.length]; [reflexivity |].
  now rewrite IH.
Qed.

Lemma append_assoc (a b c : string) : (a ++ b) ++ c = a ++ (b ++ c).
Proof.
  induction a as [| x a IH]; cbn [append]; [reflexivity | now rewrite IH].
Qed.

Lemma append_empty_r (a : string) : a ++ "" = a.
Proof.
  induction a as [| x a IH]; cbn [append]; [reflexivity | now rewrite IH].
Qed.

(** A cut that is at least as long as the string keeps it whole. *)
Lemma substring_0_whole (n : nat) (s : string) :
  String.length s <= n -> substring 0 n s = s.
Proof.
  revert n. induction s as [| c s IH]; intros n H.
  - destruct n; reflexivity.
  - destruct n as [| n]; cbn [String.length] in H; [lia |].
    cbn [substring]. rewrite IH by lia. reflexivity.
Qed.

(** A cut that falls after a prefix keeps the prefix. *)
Lemma substring_0_append (n : nat) (a b : string) :
  String.length a <= n ->
  substring 0 n (a ++ b) = a ++ substring 0 (n - String.length a) b.
Proof.
  revert n. induction a as [| c a IH]; intros n H.
  - cbn [append String.length]. now rewrite Nat.sub_0_r.
  - destruct n as [| n]; cbn [String.length] in H; [lia |].
    cbn [append substring String.length]. rewrite IH by lia. reflexivity.
Qed.

Lemma substring_length_le (m n : nat) (s : string) :
  String.length (substring m n s) <= n.
Proof.
  revert m n. induction s as [| c s IH]; intros m n.
  - destruct m, n; cbn; lia.
  - destruct m as [| m]; [destruct n as [| n] |]; cbn [substring String.length].
    + lia.
    + specialize (IH 0 n). lia.
    + apply IH.
Qed.

Lemma substring_middle (pre sub post : string) :
  substring (String.length pre) (String.length sub) (pre ++ sub ++ post) = sub.
Proof.
  induction pre as [| c pre IH]; cbn [String.length append substring].
  - induction sub as [| d sub IHs]; cbn [String.length append substring].
    + destruct post; reflexivity.
    + now rewrite IHs.
  - exact IH.
Qed.

Lemma occurs_in_length (sub s : string) :
  occurs_in sub s -> String.length sub <= String.length s.
Proof.
  intros (pre & post & ->). rewrite !length_append. lia.
Qed.

Lemma occurs_in_occursb (sub s : string) :
  sub <> "" -> occurs_in sub s -> occursb sub s = true.
Proof.
  intros Hne (pre & post & ->). unfold occursb.
  destruct (index 0 sub (pre ++ sub ++ post)) eqn:E; [reflexivity |].
  exfalso.
  apply (index_correct3 0 (String.length pre) _ _ E Hne (Nat.le_0_l _)).
  apply substring_middle.
Qed.

Lemma occurs_in_append_l (sub a b : string) :
  occurs_in sub a -> occurs_in sub (a ++ b).
Proof.
  intros (pre & post & ->). exists pre, (post ++ b).
  now rewrite !append_assoc.
Qed.

Lemma occurs_in_append_r (sub a b : string) :
  occurs_in sub b -> occurs_in sub (a ++ b).
Proof.
  intros (pre & post & ->). exists (a ++ pre), post.
  now rewrite !append_assoc.
Qed.

Lemma occurs_in_refl (s : string) : occurs_in s s.
Proof.
  exists "", "". cbn [append]. now rewrite append_empty_r.
Qed.

Lemma vsnprintf_cut (size : nat) (fmt : string) (args : list printf_arg) :
  String.length (vsnprintf size fmt args) <= size - 1.
Proof.
  unfold vsnprintf. apply substring_length_le.
Qed.

End FmtFacts.

(** ** Raising errors and translating statuses *)

Section BindingFacts.

Import Fmt FmtFacts Spec.
Local Open Scope string_scope.
Local Open Scope Z_scope.

Variables napi_value napi_callback_info : Type.
Variable env : NodeApi napi_value napi_callback_info.
Variable DEBUG : bool.
Variable FILE__ : string.

Lemma napi_status_eqb_ok (st : napi_status) :
  napi_status_eqb st napi_ok = true <-> st = napi_ok.
Proof.
  destruct st; cbn; split; intros H; try reflexivity; discriminate.
Qed.

Lemma napi_status_eqb_not_ok (st : napi_status) :
  st <> napi_ok -> napi_status_eqb st napi_ok = false.
Proof.
  intros H. destruct (napi_status_eqb st napi_ok) eqn:E; [| reflexivity].
  apply napi_status_eqb_ok in E. contradiction.
Qed.

Lemma TF_Code_eqb_ok (c : TF_Code) :
  TF_Code_eqb c TF_OK = true <-> c = TF_OK.
Proof.
  destruct c; cbn; split; intros H; try reflexivity; discriminate.
Qed.

Lemma same_heap_refl (w : World) : same_heap w w.
Proof. repeat split. Qed.

Lemma same_heap_set_last_status (st : napi_status) (w : World) :
  same_heap w (set_last_status st w).
Proof. repeat split. Qed.

(** [NapiThrowError] raises the formatted message, cut to the buffer, and
    touches no memory. *)
Lemma NapiThrowError_spec (file : string) (line : Z) (fmt : string)
    (args : list printf_arg) (w : World) :
  raises w (snd (NapiThrowError env DEBUG file line fmt args w))
         (vsnprintf 500 fmt args)
  /\ same_heap w (snd (NapiThrowError env DEBUG file line fmt args w)).
Proof.
  unfold NapiThrowError, DEBUG_LOG, bind, raises, same_heap.
  destruct DEBUG; cbn; repeat split.
Qed.

Lemma EnsureNapiOK_ok (file : string) (line : Z) (w : World) :
  EnsureNapiOK env DEBUG napi_ok file line w = (true, w).
Proof. reflexivity. Qed.

Lemma format_napi_status (m : string) :
  format ("Invalid napi_status: %s" ++ LF) [ArgString m]
  = "Invalid napi_status: " ++ m ++ LF.
Proof. reflexivity. Qed.

Lemma EnsureNapiOK_fail (st : napi_status) (file : string) (line : Z)
    (w : World) :
  st <> napi_ok ->
  fst (EnsureNapiOK env DEBUG st file line w) = false
  /\ raises w (snd (EnsureNapiOK env DEBUG st file line w))
            (substring 0 499 (napi_failure_text env w))
  /\ same_heap w (snd (EnsureNapiOK env DEBUG st file line w)).
Proof.
  intros Hst. unfold EnsureNapiOK, bind, ret, napi_get_last_error_info.
  rewrite (napi_status_eqb_not_ok st Hst). cbn [negb].
  destruct (NapiThrowError_spec file line ("Invalid napi_status: %s" ++ LF)
              [ArgString match napi_error_message env (last_status w) with
                         | Some m => m
                         | None => "unknown"
                         end] w) as [Hr Hh].
  destruct (NapiThrowError env DEBUG file line _ _ w) as [[] w'].
  cbn [fst snd] in *. split; [reflexivity |]. split; [| exact Hh].
  unfold vsnprintf in Hr. rewrite format_napi_status in Hr. exact Hr.
Qed.

Lemma format_tf_status (c : TF_Code) (m : string) :
  format ("Invalid TF_Status: %u" ++ LF ++ "Message: %s")
         [ArgUnsigned (TF_Code_value c); ArgString m]
  = uniform_format "TF_Status" (decimal (TF_Code_value c)) m.
Proof.
  destruct c; cbn [format append LF]; unfold uniform_format;
    cbn [append]; now rewrite append_empty_r.
Qed.

Lemma EnsureTFOK_ok (st : TF_AutoStatus) (file : string) (line : Z)
    (w : World) :
  TF_GetCode (status st) = TF_OK ->
  EnsureTFOK env DEBUG st file line w = (true, w).
Proof.
  intros H. unfold EnsureTFOK. rewrite H. reflexivity.
Qed.

Lemma EnsureTFOK_fail (st : TF_AutoStatus) (file : string) (line : Z)
    (w : World) :
  TF_GetCode (status st) <> TF_OK ->
  fst (EnsureTFOK env DEBUG st file line w) = false
  /\ raises w (snd (EnsureTFOK env DEBUG st file line w))
       (substring 0 499
          (uniform_format "TF_Status"
             (decimal (TF_Code_value (TF_GetCode (status st))))
             (TF_Message (status st))))
  /\ same_heap w (snd (EnsureTFOK env DEBUG st file line w)).
Proof.
  intros Hst. unfold EnsureTFOK, bind, ret.
  assert (E : TF_Code_eqb (TF_GetCode (status st)) TF_OK = false).
  { destruct (TF_Code_eqb _ _) eqn:E; [| reflexivity].
    apply TF_Code_eqb_ok in E. contradiction. }
  rewrite E. cbn [negb].
  destruct (NapiThrowError_spec file line
              ("Invalid TF_Status: %u" ++ LF ++ "Message: %s")
              [ArgUnsigned (TF_Code_value (TF_GetCode (status st)));
               ArgString (TF_Message (status st))] w) as [Hr Hh].
  destruct (NapiThrowError env DEBUG file line _ _ w) as [[] w'].
  cbn [fst snd] in *. split; [reflexivity |]. split; [| exact Hh].
  unfold vsnprintf in Hr. rewrite format_tf_status in Hr. exact Hr.
Qed.

(** The decimal code always survives the cut of the buffer. *)
Lemma TF_code_in_message (c : TF_Code) (m : string) :
  occurs_in (decimal (TF_Code_value c))
            (substring 0 499 (uniform_format "TF_Status"
                                (decimal (TF_Code_value c)) m)).
Proof.
  unfold uniform_format.
  rewrite <- (append_assoc "Invalid " "TF_Status").
  rewrite <- (append_assoc ("Invalid " ++ "TF_Status") ": ").
  rewrite <- (append_assoc _ (decimal (TF_Code_value c))).
  rewrite substring_0_append by (destruct c; vm_compute; lia).
  apply occurs_in_append_l, occurs_in_append_r, occurs_in_refl.
Qed.

End BindingFacts.

Section StatusTheorems.

Import Fmt FmtFacts Spec.
Local Open Scope string_scope.
Local Open Scope Z_scope.

Variables napi_value napi_callback_info : Type.
Variable env : NodeApi napi_value napi_callback_info.
Variable DEBUG : bool.
Variable FILE__ : string.

(** C3, as amended.  Each translator raises, for a non-success status, the
    first 499 characters of a text of its own layout: [EnsureTFOK] the
    layout [Invalid TF_Status: <code>\nMessage: <message>], [EnsureNapiOK]
    the layout [Invalid napi_status: <message>\n], with the runtime's
    message for the last call or [unknown], no code and no [Message:]
    line. *)
Theorem status_translators_formats (nstatus : napi_status)
    (tstatus : TF_AutoStatus) (file : string) (line : Z) (w : World) :
  nstatus <> napi_ok ->
  TF_GetCode (status tstatus) <> TF_OK ->
  raises w (snd (EnsureNapiOK env DEBUG nstatus file line w))
         (substring 0 499
            ("Invalid napi_status: "
             ++ match napi_error_message env (last_status w) with
                | Some m => m
                | None => "unknown"
                end ++ LF))
  /\ raises w (snd (EnsureTFOK env DEBUG tstatus file line w))
       (substring 0 499
          ("Invalid TF_Status: "
           ++ decimal (TF_Code_value (TF_GetCode (status tstatus)))
           ++ LF ++ "Message: " ++ TF_Message (status tstatus))).
Proof.
  intros Hn Ht. split.
  - apply (EnsureNapiOK_fail _ _ env DEBUG nstatus file line w Hn).
  - apply (EnsureTFOK_fail _ _ env DEBUG tstatus file line w Ht).
Qed.

(** C4, as amended.  [EnsureTFOK] returns [true] and leaves the state
    unchanged for [TF_OK]; for any other code it returns [false] and raises
    one error, whose message is the first 499 characters of
    [Invalid TF_Status: <code>\nMessage: <message>].  The code is always
    part of it; the runtime's message text is part of it whenever the whole
    text fits in 499 characters. *)
Theorem EnsureTFOK_spec (st : TF_AutoStatus) (file : string) (line : Z)
    (w : World) :
  let out := EnsureTFOK env DEBUG st file line w in
  let code := decimal (TF_Code_value (TF_GetCode (status st))) in
  let text := uniform_format "TF_Status" code (TF_Message (status st)) in
  (fst out = true <-> TF_GetCode (status st) = TF_OK)
  /\ (TF_GetCode (status st) = TF_OK -> snd out = w)
  /\ (TF_GetCode (status st) <> TF_OK ->
      fst out = false
      /\ raises w (snd out) (substring 0 499 text)
      /\ occurs_in code (substring 0 499 text)
      /\ ((String.length text <= 499)%nat ->
          substring 0 499 text = text
          /\ occurs_in (TF_Message (status st)) (substring 0 499 text))).
Proof.
  cbv zeta. split; [| split].
  - split; intros H.
    + destruct (TF_GetCode (status st)) eqn:E; try reflexivity;
        exfalso;
        assert (Hne : TF_GetCode (status st) <> TF_OK) by (rewrite E; discriminate);
        destruct (EnsureTFOK_fail _ _ env DEBUG st file line w Hne) as [Hf _];
        rewrite Hf in H; discriminate.
    + now rewrite (EnsureTFOK_ok _ _ env DEBUG st file line w H).
  - intros H. now rewrite (EnsureTFOK_ok _ _ env DEBUG st file line w H).
  - intros Hne.
    destruct (EnsureTFOK_fail _ _ env DEBUG st file line w Hne) as (Hf & Hr & _).
    split; [exact Hf |]. split; [exact Hr |].
    split; [apply TF_code_in_message |].
    intros Hfit. rewrite substring_0_whole by exact Hfit.
    split; [reflexivity |].
    unfold uniform_format.
    do 6 apply occurs_in_append_r. apply occurs_in_refl.
Qed.

(** C6.  For unsigned 32-bit [value] and [max], [EnsureValueIsLessThan]
    returns [false] exactly when [value > max], and then raises the range
    failure [Argument is greater than max: <value> > <max>]; otherwise it
    returns [true] and leaves the state as it was. *)
Theorem EnsureValueIsLessThan_spec (value max : Z) (file : string) (line : Z)
    (w : World) :
  Int.is_uint32 value ->
  Int.is_uint32 max ->
  let out := EnsureValueIsLessThan env DEBUG value max file line w in
  (fst out = false <-> max < value)
  /\ (max < value ->
      raises w (snd out)
        (substring 0 499
           ("Argument is greater than max: " ++ decimal value
            ++ " > " ++ decimal max))
      /\ same_heap w (snd out))
  /\ (value <= max -> fst out = true /\ snd out = w).
Proof.
  intros Hv Hm. cbv zeta. unfold EnsureValueIsLessThan.
  destruct (max <? value) eqn:E.
  - apply Z.ltb_lt in E. unfold bind, ret.
    destruct (NapiThrowError_spec _ _ env DEBUG file line
                "Argument is greater than max: %u > %u"
                [ArgUnsigned value; ArgUnsigned max] w) as [Hr Hh].
    destruct (NapiThrowError env DEBUG file line _ _ w) as [[] w'].
    cbn [fst snd] in *.
    split; [tauto |]. split; [| lia].
    intros _. split; [| exact Hh].
    unfold vsnprintf in Hr. cbn [format append] in Hr.
    unfold Int.is_uint32 in Hv, Hm. unfold Int.to_uint32 in Hr.
    rewrite !Z.mod_small in Hr by assumption.
    rewrite append_empty_r in Hr. exact Hr.
  - apply Z.ltb_ge in E. unfold ret. cbn [fst snd].
    split; [split; [discriminate | lia] |].
    split; [lia | auto].
Qed.

(** C7.  When the runtime reports the callback's [new.target]:
    if it is absent, [EnsureConstructorCall] returns [false] and raises
    [Function not used as a constructor!], and an entry point guarded by
    [ENSURE_CONSTRUCTOR_CALL(_RETVAL)] returns at once, in that very state,
    without running the rest of its body and so without allocating;
    if it is present, [EnsureConstructorCall] returns [true], raises
    nothing, and the guarded body runs. *)
Theorem EnsureConstructorCall_spec (info : napi_callback_info)
    (target : option napi_value) (file : string) (line : Z) (w : World) :
  napi_get_new_target env info = (napi_ok, target) ->
  let out := EnsureConstructorCall env DEBUG FILE__ info file line w in
  match target with
  | None =>
      fst out = false
      /\ raises w (snd out) "Function not used as a constructor!"
      /\ same_heap w (snd out)
      /\ forall (A : Type) (retval : A) (body : M A) (l : Z),
           ENSURE_CONSTRUCTOR_CALL_RETVAL env DEBUG FILE__ info l retval body w
           = (retval,
              snd (EnsureConstructorCall env DEBUG FILE__ info FILE__ l w))
  | Some _ =>
      fst out = true
      /\ thrown (snd out) = thrown w
      /\ same_heap w (snd out)
      /\ forall (A : Type) (retval : A) (body : M A) (l : Z),
           ENSURE_CONSTRUCTOR_CALL_RETVAL env DEBUG FILE__ info l retval body w
           = body (snd (EnsureConstructorCall env DEBUG FILE__ info FILE__ l w))
  end.
Proof.
  intros Hcall. cbv zeta.
  assert (Heq : forall f l,
             EnsureConstructorCall env DEBUG FILE__ info f l w
             = match target with
               | Some _ => (true, set_last_status napi_ok w)
               | None =>
                   (false,
                    snd (NapiThrowError env DEBUG f l
                           "Function not used as a constructor!" []
                           (set_last_status napi_ok w)))
               end).
  { intros f l.
    unfold EnsureConstructorCall, ENSURE_NAPI_OK_RETVAL, return_unless, napi_call.
    unfold bind at 1 2. rewrite Hcall. cbn [fst snd].
    rewrite EnsureNapiOK_ok. destruct target as [t |]; cbn [negb].
    - reflexivity.
    - unfold bind, ret.
      destruct (NapiThrowError env DEBUG f l _ _ _) as [[] w']. reflexivity. }
  unfold ENSURE_CONSTRUCTOR_CALL_RETVAL, return_unless, bind.
  destruct target as [t |].
  - rewrite Heq. cbn [fst snd].
    split; [reflexivity |]. split; [reflexivity |].
    split; [apply same_heap_set_last_status |].
    intros A retval body l. rewrite Heq. reflexivity.
  - rewrite Heq. cbn [fst snd].
    destruct (NapiThrowError_spec _ _ env DEBUG file line
                "Function not used as a constructor!" []
                (set_last_status napi_ok w)) as [Hr Hh].
    split; [reflexivity |]. split; [exact Hr |]. split; [exact Hh |].
    intros A retval body l. rewrite Heq. reflexivity.
Qed.

End StatusTheorems.

(** ** Shape extraction *)

Section ShapeTheorems.

Import Fmt FmtFacts Spec.
Local Open Scope Z_scope.

Variables napi_value napi_callback_info : Type.
Variable env : NodeApi napi_value napi_callback_info.
Variable DEBUG : bool.
Variable FILE__ : string.

Lemma extractable_dec (arr : napi_value) (i : Z) :
  {extractable env arr i} + {~ extractable env arr i}.
Proof.
  unfold extractable.
  destruct (napi_status_eqb (fst (napi_get_element env arr i)) napi_ok) eqn:E1.
  - destruct (napi_status_eqb
                (fst (napi_get_value_int64 env (element_at env arr i))) napi_ok)
      eqn:E2.
    + left. split; now apply napi_status_eqb_ok.
    + right. intros [_ H]. apply napi_status_eqb_ok in H. congruence.
  - right. intros [H _]. apply napi_status_eqb_ok in H. congruence.
Qed.

(** One iteration on an element that extracts: its coerced value is
    pushed and the loop goes on. *)
Lemma ExtractArrayShape_loop_step (n : nat) (i : Z) (arr : napi_value)
    (result : list Z) (w : World) :
  extractable env arr i ->
  ExtractArrayShape_loop env DEBUG FILE__ (S n) i arr result w
  = ExtractArrayShape_loop env DEBUG FILE__ n (i + 1) arr
      (result ++ [coerced_at env arr i]) (set_last_status napi_ok w).
Proof.
  intros [H1 H2]. unfold coerced_at, element_at in *.
  cbn [ExtractArrayShape_loop].
  unfold ENSURE_NAPI_OK_RETVAL, return_unless, napi_call.
  unfold bind at 1 2. rewrite H1. rewrite EnsureNapiOK_ok.
  unfold bind at 1 2. rewrite H2. rewrite EnsureNapiOK_ok.
  reflexivity.
Qed.

(** One iteration on an element that does not extract: the vector is
    handed back as it is and one error is raised. *)
Lemma ExtractArrayShape_loop_abort (n : nat) (i : Z) (arr : napi_value)
    (result : list Z) (w : World) :
  ~ extractable env arr i ->
  exists w',
    ExtractArrayShape_loop env DEBUG FILE__ (S n) i arr result w = (result, w')
    /\ exists msg, raises w w' msg.
Proof.
  intros Hno. unfold extractable, element_at in Hno.
  cbn [ExtractArrayShape_loop].
  unfold ENSURE_NAPI_OK_RETVAL, return_unless, napi_call.
  unfold bind at 1 2.
  destruct (napi_status_eqb (fst (napi_get_element env arr i)) napi_ok) eqn:E1.
  - apply napi_status_eqb_ok in E1. rewrite E1, EnsureNapiOK_ok.
    unfold bind at 1 2.
    assert (E2 : fst (napi_get_value_int64 env
                        (snd (napi_get_element env arr i))) <> napi_ok)
      by tauto.
    destruct (EnsureNapiOK_fail _ _ env DEBUG _ FILE__ 251
                (set_last_status
                   (fst (napi_get_value_int64 env
                           (snd (napi_get_element env arr i))))
                   (set_last_status napi_ok w)) E2) as (Hf & Hr & _).
    destruct (EnsureNapiOK env DEBUG _ FILE__ 251 _) as [b w'].
    cbn [fst snd] in *. subst b. unfold ret.
    exists w'. split; [reflexivity |]. eexists. exact Hr.
  - assert (E : fst (napi_get_element env arr i) <> napi_ok).
    { intros H. apply napi_status_eqb_ok in H. congruence. }
    destruct (EnsureNapiOK_fail _ _ env DEBUG _ FILE__ 247
                (set_last_status (fst (napi_get_element env arr i)) w) E)
      as (Hf & Hr & _).
    destruct (EnsureNapiOK env DEBUG _ FILE__ 247 _) as [b w'].
    cbn [fst snd] in *. subst b. unfold ret.
    exists w'. split; [reflexivity |]. eexists. exact Hr.
Qed.

(** The length query failing: nothing is appended, one error is raised. *)
Lemma ExtractArrayShape_length_fail (arr : napi_value) (result : list Z)
    (w : World) :
  fst (napi_get_array_length env arr) <> napi_ok ->
  exists w',
    ExtractArrayShape env DEBUG FILE__ arr result w = (result, w')
    /\ exists msg, raises w w' msg.
Proof.
  intros Hfail.
  unfold ExtractArrayShape, ENSURE_NAPI_OK_RETVAL, return_unless, napi_call.
  unfold bind at 1 2.
  destruct (EnsureNapiOK_fail _ _ env DEBUG _ FILE__ 242
              (set_last_status (fst (napi_get_array_length env arr)) w) Hfail)
    as (Hf & Hr & _).
  destruct (EnsureNapiOK env DEBUG _ FILE__ 242 _) as [b w'].
  cbn [fst snd] in *. subst b. unfold ret.
  exists w'. split; [reflexivity |]. eexists. exact Hr.
Qed.

(** The length query succeeding: the loop runs over that many indices. *)
Lemma ExtractArrayShape_length_ok (arr : napi_value) (result : list Z)
    (w : World) :
  fst (napi_get_array_length env arr) = napi_ok ->
  ExtractArrayShape env DEBUG FILE__ arr result w
  = ExtractArrayShape_loop env DEBUG FILE__
      (Z.to_nat (snd (napi_get_array_length env arr))) 0 arr result
      (set_last_status napi_ok w).
Proof.
  intros Hok.
  unfold ExtractArrayShape, ENSURE_NAPI_OK_RETVAL, return_unless, napi_call.
  unfold bind at 1 2. rewrite Hok, EnsureNapiOK_ok. reflexivity.
Qed.

Lemma coerced_from_S (arr : napi_value) (i : Z) (k : nat) :
  coerced_from env arr i (S k)
  = coerced_at env arr i :: coerced_from env arr (i + 1) k.
Proof.
  unfold coerced_from. cbn [seq map]. rewrite Z.add_0_r. f_equal.
  rewrite <- seq_shift, map_map. apply map_ext. intros j.
  f_equal. lia.
Qed.

(** [k] iterations over elements that all extract. *)
Lemma ExtractArrayShape_loop_prefix (k n : nat) (i : Z) (arr : napi_value)
    (result : list Z) (w : World) :
  (forall j, (j < k)%nat -> extractable env arr (i + Z.of_nat j)) ->
  exists w1,
    ExtractArrayShape_loop env DEBUG FILE__ (k + n) i arr result w
    = ExtractArrayShape_loop env DEBUG FILE__ n (i + Z.of_nat k) arr
        (result ++ coerced_from env arr i k) w1
    /\ thrown w1 = thrown w.
Proof.
  revert i result w. induction k as [| k IH]; intros i result w Hall.
  - exists w. cbn [Nat.add coerced_from seq map Z.of_nat].
    rewrite Z.add_0_r, app_nil_r. split; reflexivity.
  - cbn [Nat.add]. rewrite ExtractArrayShape_loop_step.
    2:{ specialize (Hall 0%nat). rewrite Z.add_0_r in Hall. apply Hall. lia. }
    destruct (IH (i + 1) (result ++ [coerced_at env arr i])
                 (set_last_status napi_ok w)) as (w1 & Heq & Hth).
    { intros j Hj. replace (i + 1 + Z.of_nat j) with (i + Z.of_nat (S j)) by lia.
      apply Hall. lia. }
    exists w1. rewrite Heq, coerced_from_S, <- app_assoc. cbn [app].
    replace (i + 1 + Z.of_nat k) with (i + Z.of_nat (S k)) by lia.
    split; [reflexivity | exact Hth].
Qed.

Lemma coerced_from_length (arr : napi_value) (i : Z) (k : nat) :
  List.length (coerced_from env arr i k) = k.
Proof.
  unfold coerced_from. now rewrite length_map, length_seq.
Qed.

Lemma coerced_from_nth (arr : napi_value) (k j : nat) :
  (j < k)%nat ->
  nth_error (coerced_from env arr 0 k) j = Some (coerced_at env arr (Z.of_nat j)).
Proof.
  intros H. unfold coerced_from.
  rewrite nth_error_map, nth_error_nth' with (d := 0%nat)
    by (rewrite length_seq; lia).
  rewrite seq_nth by lia. reflexivity.
Qed.

(** C2.  Let [n] be the length the runtime reports for the array and let
    its first [k] elements extract (both boundary calls succeed on them).
    - If the length query fails, nothing is appended and one error is
      raised.
    - If [k = n], every element extracts: the output is the input vector
      followed by the [n] coerced elements, in order (so [n] longer, the
      [i]-th new entry being element [i] coerced), and nothing is raised.
    - If element [k < n] does not extract (either call on it fails),
      extraction stops there: the output is the input vector followed by
      exactly the [k] elements coerced before it, and one error is raised. *)
Theorem ExtractArrayShape_spec (arr : napi_value) (result : list Z)
    (w : World) (k : nat) :
  let out := ExtractArrayShape env DEBUG FILE__ arr result w in
  let n := Z.to_nat (snd (napi_get_array_length env arr)) in
  (k <= n)%nat ->
  (forall i, (i < k)%nat -> extractable env arr (Z.of_nat i)) ->
  (fst (napi_get_array_length env arr) <> napi_ok ->
   fst out = result /\ exists msg, raises w (snd out) msg)
  /\ (fst (napi_get_array_length env arr) = napi_ok -> k = n ->
      fst out = result ++ coerced_from env arr 0 n
      /\ List.length (fst out) = (List.length result + n)%nat
      /\ (forall i, (i < n)%nat ->
            nth_error (fst out) (List.length result + i)
            = Some (coerced_at env arr (Z.of_nat i)))
      /\ thrown (snd out) = thrown w)
  /\ (fst (napi_get_array_length env arr) = napi_ok -> (k < n)%nat ->
      ~ extractable env arr (Z.of_nat k) ->
      fst out = result ++ coerced_from env arr 0 k
      /\ exists msg, raises w (snd out) msg).
Proof.
  cbv zeta. intros Hk Hall.
  split; [| split].
  - intros Hfail.
    destruct (ExtractArrayShape_length_fail arr result w Hfail)
      as (w' & -> & Hr).
    split; [reflexivity | exact Hr].
  - intros Hok ->. rewrite (ExtractArrayShape_length_ok arr result w Hok).
    destruct (ExtractArrayShape_loop_prefix
                (Z.to_nat (snd (napi_get_array_length env arr))) 0 0 arr result
                (set_last_status napi_ok w)) as (w1 & Heq & Hth).
    { intros j Hj. rewrite Z.add_0_l. now apply Hall. }
    rewrite Nat.add_0_r in Heq. rewrite Heq.
    cbn [ExtractArrayShape_loop]. unfold ret. cbn [fst snd].
    split; [reflexivity |].
    split; [now rewrite length_app, coerced_from_length |].
    split; [| exact Hth].
    intros i Hi. rewrite nth_error_app2 by lia.
    replace (List.length result + i - List.length result)%nat with i by lia.
    now apply coerced_from_nth.
  - intros Hok Hlt Hno. rewrite (ExtractArrayShape_length_ok arr result w Hok).
    replace (Z.to_nat (snd (napi_get_array_length env arr)))
      with (k + S (Z.to_nat (snd (napi_get_array_length env arr)) - S k))%nat
      by lia.
    destruct (ExtractArrayShape_loop_prefix k
                (S (Z.to_nat (snd (napi_get_array_length env arr)) - S k))
                0 arr result (set_last_status napi_ok w)) as (w1 & Heq & Hth).
    { intros j Hj. rewrite Z.add_0_l. now apply Hall. }
    rewrite Heq. rewrite Z.add_0_l.
    destruct (ExtractArrayShape_loop_abort
                (Z.to_nat (snd (napi_get_array_length env arr)) - S k)
                (Z.of_nat k) arr (result ++ coerced_from env arr 0 k) w1 Hno)
      as (w' & -> & msg & Hr).
    split; [reflexivity |]. exists msg.
    unfold raises in *. cbn [snd]. rewrite Hr, Hth. reflexivity.
Qed.

End ShapeTheorems.

(** ** String extraction and the validators' messages *)

Section StringTheorems.

Import Fmt FmtFacts Spec.
Local Open Scope Z_scope.

Variables napi_value napi_callback_info : Type.
Variable env : NodeApi napi_value napi_callback_info.
Variable DEBUG : bool.
Variable FILE__ : string.

Lemma EnsureValueIsString_ok (v : napi_value) (file : string) (line : Z)
    (w : World) :
  napi_typeof env v = (napi_ok, napi_string) ->
  EnsureValueIsString env DEBUG FILE__ v file line w
  = (true, set_last_status napi_ok w).
Proof.
  intros H.
  unfold EnsureValueIsString, ENSURE_NAPI_OK_RETVAL, return_unless, napi_call.
  unfold bind at 1 2. rewrite H. cbn [fst snd]. rewrite EnsureNapiOK_ok.
  reflexivity.
Qed.

(** A value whose type the runtime reports as anything but a number is
    rejected by the number validator with the string validator's text. *)
Lemma EnsureValueIsNumber_rejects (v : napi_value) (t : napi_valuetype)
    (file : string) (line : Z) (w : World) :
  napi_typeof env v = (napi_ok, t) ->
  t <> napi_number ->
  exists w',
    EnsureValueIsNumber env DEBUG FILE__ v file line w = (false, w')
    /\ raises w w' "Argument is not a string!"%string.
Proof.
  intros H Ht.
  unfold EnsureValueIsNumber, ENSURE_NAPI_OK_RETVAL, return_unless, napi_call.
  unfold bind at 1 2. rewrite H. cbn [fst snd]. rewrite EnsureNapiOK_ok.
  assert (E : napi_valuetype_eqb t napi_number = false)
    by (destruct t; try reflexivity; contradiction).
  rewrite E. cbn [negb]. unfold bind, ret.
  destruct (NapiThrowError_spec _ _ env DEBUG file line
              "Argument is not a string!"%string []
              (set_last_status napi_ok w)) as [Hr _].
  destruct (NapiThrowError env DEBUG file line _ _ _) as [[] w'].
  exists w'. split; [reflexivity | exact Hr].
Qed.

(** What [GetStringParam] has done once the buffer is allocated: the
    type check and the length query passed, and a block of [n + 1] bytes
    was handed out at the next address. *)
Lemma GetStringParam_allocates (v : napi_value) (str ignored : string)
    (n : Z) (w : World) :
  napi_typeof env v = (napi_ok, napi_string) ->
  napi_get_value_string_utf8 env v None = (napi_ok, (ignored, n)) ->
  0 <= n -> n + 1 <= Int.SIZE_MAX -> n + 1 <= mem_avail w ->
  GetStringParam env DEBUG FILE__ v str w
  = (let p := next_addr w in
     let r := napi_get_value_string_utf8 env v (Some (n + 1)) in
     let w1 := set_heap (heap w ++ [(p, mkBlock (n + 1) EmptyString)])
                        (S p) (mem_avail w - (n + 1))
                        (set_last_status napi_ok w) in
     let w2 := snd (store p (fst (snd r)) (set_last_status (fst r) w1)) in
     ENSURE_NAPI_OK_RETVAL env DEBUG FILE__ (fst r) 294 (fst r, str)
       (bind (load p) (fun bytes =>
          bind (free p) (fun _ =>
            ret (napi_ok, substring 0 (Z.to_nat (snd (snd r))) bytes))))
       w2).
Proof.
  intros Htype Hquery Hn Hmax Havail.
  unfold GetStringParam. unfold return_unless at 1. unfold bind at 1.
  rewrite (EnsureValueIsString_ok v FILE__ 280 w Htype).
  unfold napi_call at 1. unfold bind at 1. rewrite Hquery. cbn [fst snd].
  unfold ENSURE_NAPI_OK_RETVAL at 1. unfold return_unless at 1.
  unfold bind at 1. rewrite EnsureNapiOK_ok.
  unfold bind at 1. unfold malloc.
  replace (Int.to_size_t (1 * (n + 1))) with (n + 1).
  2:{ symmetry. rewrite Z.mul_1_l. apply IntFacts.to_size_t_small. lia. }
  cbn [mem_avail set_last_status].
  replace (n + 1 <=? mem_avail w) with true by (symmetry; apply Z.leb_le; lia).
  unfold return_unless at 1. unfold bind at 1.
  unfold EnsureValueIsNotNull. unfold bind at 1. unfold ret at 1 2.
  cbn [negb]. unfold bind at 1. unfold napi_call. unfold bind at 1.
  cbv zeta. reflexivity.
Qed.

Lemma store_fresh (h : list (nat * block)) (p : nat) (b : block)
    (bytes : string) :
  Forall (fun e => fst e <> p) h ->
  map (fun e => if Nat.eqb (fst e) p
                then (fst e, mkBlock (block_size (snd e)) bytes)
                else e) (h ++ [(p, b)])
  = h ++ [(p, mkBlock (block_size b) bytes)].
Proof.
  intros Hfresh. rewrite map_app. cbn [map fst snd]. rewrite Nat.eqb_refl.
  f_equal. induction Hfresh as [| e h He _ IH]; [reflexivity |].
  cbn [map]. rewrite IH.
  destruct (Nat.eqb (fst e) p) eqn:E; [| reflexivity].
  apply Nat.eqb_eq in E. contradiction.
Qed.

Lemma block_at_fresh (h : list (nat * block)) (p : nat) (b : block) :
  Forall (fun e => fst e <> p) h -> block_at p (h ++ [(p, b)]) = Some b.
Proof.
  intros Hfresh. unfold block_at.
  induction Hfresh as [| e h He _ IH]; cbn [app find fst snd].
  - now rewrite Nat.eqb_refl.
  - destruct (Nat.eqb (fst e) p) eqn:E; [| exact IH].
    apply Nat.eqb_eq in E. contradiction.
Qed.

Lemma filter_fresh (h : list (nat * block)) (p : nat) (b : block) :
  Forall (fun e => fst e <> p) h ->
  filter (fun e => negb (Nat.eqb (fst e) p)) (h ++ [(p, b)]) = h.
Proof.
  intros Hfresh. rewrite filter_app. cbn [filter fst]. rewrite Nat.eqb_refl.
  cbn [negb]. rewrite app_nil_r.
  induction Hfresh as [| e h He _ IH]; [reflexivity |].
  cbn [filter]. rewrite IH.
  destruct (Nat.eqb (fst e) p) eqn:E; [| reflexivity].
  apply Nat.eqb_eq in E. contradiction.
Qed.

(** Success path: the copied characters are returned and the buffer is
    released, so the heap is as it was on entry. *)
Lemma GetStringParam_success_releases (v : napi_value)
    (str ignored bytes : string) (n n' : Z) (w : World) :
  napi_typeof env v = (napi_ok, napi_string) ->
  napi_get_value_string_utf8 env v None = (napi_ok, (ignored, n)) ->
  0 <= n -> n + 1 <= Int.SIZE_MAX -> n + 1 <= mem_avail w ->
  Forall (fun e => fst e <> next_addr w) (heap w) ->
  napi_get_value_string_utf8 env v (Some (n + 1)) = (napi_ok, (bytes, n')) ->
  exists w',
    GetStringParam env DEBUG FILE__ v str w
    = ((napi_ok, substring 0 (Z.to_nat n') bytes), w')
    /\ heap w' = heap w
    /\ mem_avail w' = mem_avail w
    /\ thrown w' = thrown w.
Proof.
  intros Htype Hquery Hn Hmax Havail Hfresh Hcopy.
  rewrite (GetStringParam_allocates v str ignored n w Htype Hquery Hn Hmax Havail).
  cbv zeta. rewrite Hcopy. cbn [fst snd].
  unfold ENSURE_NAPI_OK_RETVAL, return_unless. unfold bind at 1.
  rewrite EnsureNapiOK_ok.
  unfold store, load, free, bind, ret.
  cbn [fst snd heap set_heap set_last_status next_addr mem_avail thrown stderr
       last_status].
  rewrite (store_fresh (heap w) (next_addr w) _ bytes Hfresh).
  rewrite (block_at_fresh (heap w) (next_addr w) _ Hfresh).
  cbn [block_bytes block_size].
  rewrite (filter_fresh (heap w) (next_addr w) _ Hfresh).
  eexists. split; [reflexivity |].
  cbn [heap mem_avail thrown].
  split; [reflexivity |]. split; [unfold set_heap; cbn [mem_avail]; lia | reflexivity].
Qed.

(** Failure of the copying call: the function returns the failing status
    through [ENSURE_NAPI_OK_RETVAL] and the buffer stays allocated. *)
Lemma GetStringParam_copy_failure_leaks (v : napi_value)
    (str ignored bytes : string) (n n' : Z) (st : napi_status) (w : World) :
  napi_typeof env v = (napi_ok, napi_string) ->
  napi_get_value_string_utf8 env v None = (napi_ok, (ignored, n)) ->
  0 <= n -> n + 1 <= Int.SIZE_MAX -> n + 1 <= mem_avail w ->
  Forall (fun e => fst e <> next_addr w) (heap w) ->
  napi_get_value_string_utf8 env v (Some (n + 1)) = (st, (bytes, n')) ->
  st <> napi_ok ->
  exists w',
    GetStringParam env DEBUG FILE__ v str w = ((st, str), w')
    /\ heap w' = heap w ++ [(next_addr w, mkBlock (n + 1) bytes)]
    /\ mem_avail w' = mem_avail w - (n + 1)
    /\ exists msg, raises w w' msg.
Proof.
  intros Htype Hquery Hn Hmax Havail Hfresh Hcopy Hst.
  rewrite (GetStringParam_allocates v str ignored n w Htype Hquery Hn Hmax Havail).
  cbv zeta. rewrite Hcopy. cbn [fst snd].
  unfold ENSURE_NAPI_OK_RETVAL, return_unless. unfold bind at 1.
  unfold store.
  cbn [fst snd heap set_heap set_last_status next_addr mem_avail thrown stderr
       last_status].
  rewrite (store_fresh (heap w) (next_addr w) _ bytes Hfresh).
  cbn [block_size].
  match goal with
  | |- context [EnsureNapiOK env DEBUG st FILE__ 294 ?w0] =>
      destruct (EnsureNapiOK_fail _ _ env DEBUG st FILE__ 294 w0 Hst)
        as (Hf & Hr & Hh);
      destruct (EnsureNapiOK env DEBUG st FILE__ 294 w0) as [b w']
  end.
  cbn [fst snd] in *. subst b. unfold ret.
  exists w'. split; [reflexivity |].
  destruct Hh as (Hheap & _ & Havl). cbn [heap mem_avail] in Hheap, Havl.
  split; [exact Hheap |]. split; [exact Havl |].
  eexists. exact Hr.
Qed.

End StringTheorems.

(** ** [split] *)

Module SplitFacts.

Import Split FmtFacts.
Local Open Scope string_scope.
Local Open Scope nat_scope.

Lemma find_append (pre rest : string) (c : ascii) :
  find (pre ++ rest) c (String.length pre)
  = option_map (fun k => String.length pre + k) (find rest c 0).
Proof.
  induction pre as [| a pre IH]; cbn [append String.length find].
  - destruct (find rest c 0); reflexivity.
  - rewrite IH. destruct (find rest c 0); reflexivity.
Qed.

Lemma substring_append_skip (pre rest : string) (n : nat) :
  substring (String.length pre) n (pre ++ rest) = substring 0 n rest.
Proof.
  induction pre as [| a pre IH]; cbn [append String.length substring];
    [reflexivity | exact IH].
Qed.

Lemma substring_0_0 (s : string) : substring 0 0 s = "".
Proof. destruct s; reflexivity. Qed.

Lemma fields_not_nil (s : string) : fields s <> [].
Proof.
  induction s as [| c s IH]; cbn [fields]; [discriminate |].
  destruct (Ascii.eqb c comma); [discriminate |].
  destruct (fields s); discriminate.
Qed.

(** A comma-free string is its own single field. *)
Lemma fields_comma_free (s : string) : comma_free s = true -> fields s = [s].
Proof.
  induction s as [| c s IH]; cbn [comma_free fields]; [reflexivity |].
  destruct (Ascii.eqb c comma); cbn [negb andb]; [discriminate |].
  intros H. now rewrite (IH H).
Qed.

(** The fields of [tok,rest] are [tok] and the fields of [rest]. *)
Lemma fields_cons (tok rest : string) :
  comma_free tok = true ->
  fields (tok ++ String comma rest) = tok :: fields rest.
Proof.
  induction tok as [| c tok IH]; cbn [comma_free append fields].
  - intros _. now rewrite Ascii.eqb_refl.
  - destruct (Ascii.eqb c comma); cbn [negb andb]; [discriminate |].
    intros H. now rewrite (IH H).
Qed.

Lemma find_none (s : string) : find s comma 0 = None -> comma_free s = true.
Proof.
  induction s as [| c s IH]; cbn [find comma_free]; [reflexivity |].
  destruct (Ascii.eqb c comma); [discriminate |].
  destruct (find s comma 0); [discriminate |]. intros _. now apply IH.
Qed.

Lemma find_some (s : string) (k : nat) :
  find s comma 0 = Some k ->
  exists tok rest,
    s = tok ++ String comma rest
    /\ String.length tok = k
    /\ comma_free tok = true.
Proof.
  revert k. induction s as [| c s IH]; intros k; cbn [find]; [discriminate |].
  destruct (Ascii.eqb c comma) eqn:E.
  - intros [= <-]. apply Ascii.eqb_eq in E. subst c.
    exists "", s. repeat split.
  - destruct (find s comma 0) as [k' |]; [| discriminate].
    intros [= <-]. destruct (IH k' eq_refl) as (tok & rest & -> & Hlen & Hfree).
    exists (String c tok), rest. cbn [append String.length comma_free].
    rewrite E, Hlen, Hfree. repeat split.
Qed.

Lemma empty_length (s : string) : empty s = true <-> String.length s = 0.
Proof.
  destruct s; cbn; split; intros H; try reflexivity; discriminate.
Qed.

Lemma nonempty_fields_cons (tok rest : string) :
  comma_free tok = true ->
  nonempty_fields (tok ++ String comma rest)
  = (keep tok ++ nonempty_fields rest)%list.
Proof.
  intros H. unfold nonempty_fields, keep. rewrite (fields_cons _ _ H).
  cbn [filter]. destruct (negb (empty tok)); reflexivity.
Qed.

(** The loop entered at position [|pre|] of [pre ++ rest] appends the
    non-empty fields of [rest]. *)
Lemma split_loop_spec (fuel : nat) :
  forall (pre rest : string) (tokens : list string),
    String.length rest < fuel ->
    split_loop fuel (pre ++ rest) (String.length pre) tokens
    = Some (tokens ++ nonempty_fields rest)%list.
Proof.
  induction fuel as [| fuel IH]; intros pre rest tokens Hfuel; [lia |].
  cbn [split_loop]. rewrite find_append.
  unfold substr. rewrite length_append.
  replace (String.length pre <=? String.length pre + String.length rest)
    with true by (symmetry; apply Nat.leb_le; lia).
  destruct (find rest comma 0) as [k |] eqn:Efind; cbn [option_map].
  - destruct (find_some rest k Efind) as (tok & rest' & -> & Hlen & Hfree).
    replace (String.length pre + k - String.length pre) with k by lia.
    rewrite substring_append_skip, <- Hlen.
    rewrite substring_0_append by lia. rewrite Nat.sub_diag, substring_0_0.
    rewrite append_empty_r, nonempty_fields_cons by exact Hfree.
    rewrite length_append. cbn [String.length].
    replace (String.length pre + String.length tok
             <? String.length pre + (String.length tok + S (String.length rest')))
      with true by (symmetry; apply Nat.ltb_lt; lia).
    cbn [andb].
    assert (Hkeep : (if negb (empty tok) then (tokens ++ [tok])%list else tokens)
                    = (tokens ++ keep tok)%list).
    { unfold keep. destruct (negb (empty tok)); [reflexivity |].
      now rewrite app_nil_r. }
    rewrite Hkeep.
    destruct (String.length pre + String.length tok + 1
              <? String.length pre + (String.length tok + S (String.length rest')))
      eqn:Emore.
    + apply Nat.ltb_lt in Emore.
      replace (pre ++ tok ++ String comma rest')
        with ((pre ++ tok ++ String comma "") ++ rest')
        by (now rewrite !append_assoc).
      replace (String.length pre + String.length tok + 1)
        with (String.length (pre ++ tok ++ String comma ""))
        by (rewrite !length_append; cbn [String.length]; lia).
      rewrite IH.
      * now rewrite app_assoc.
      * rewrite length_append in Hfuel. cbn [String.length] in Hfuel. lia.
    + apply Nat.ltb_ge in Emore.
      assert (Hrest : rest' = "") by (destruct rest'; [reflexivity | cbn in Emore; lia]).
      subst rest'. cbn [nonempty_fields fields filter empty negb].
      now rewrite app_nil_r.
  - replace (String.length pre + String.length rest - String.length pre)
      with (String.length rest) by lia.
    rewrite substring_append_skip, substring_0_whole by lia.
    rewrite Nat.ltb_irrefl. cbn [andb].
    unfold nonempty_fields.
    rewrite (fields_comma_free rest (find_none rest Efind)). cbn [filter].
    destruct (negb (empty rest)); [reflexivity | now rewrite app_nil_r].
Qed.

Lemma comma_free_fields (s : string) :
  Forall (fun t => comma_free t = true) (fields s).
Proof.
  induction s as [| c s IH]; cbn [fields].
  - repeat constructor.
  - destruct (Ascii.eqb c comma) eqn:E.
    + constructor; [reflexivity | exact IH].
    + destruct (fields s) as [| f fs].
      * repeat constructor. cbn [comma_free]. now rewrite E.
      * inversion IH as [| ? ? Hf Hfs]; subst. constructor; [| exact Hfs].
        cbn [comma_free]. now rewrite E, Hf.
Qed.

(** Joining the fields with commas gives the string back: the fields are
    exactly what lies between the commas. *)
Lemma join_fields (s : string) : join (fields s) = s.
Proof.
  induction s as [| c s IH]; cbn [fields]; [reflexivity |].
  destruct (Ascii.eqb c comma) eqn:E.
  - apply Ascii.eqb_eq in E. subst c.
    pose proof (fields_not_nil s) as Hne.
    destruct (fields s) as [| f fs] eqn:Ef; [contradiction |].
    cbn [join append]. cbn [join] in IH. now rewrite IH.
  - pose proof (fields_not_nil s) as Hne.
    destruct (fields s) as [| f fs] eqn:Ef; [contradiction |].
    destruct fs as [| g gs]; cbn [join append] in *; now rewrite IH.
Qed.

Lemma fields_append (a b : string) :
  fields (a ++ String comma b) = (fields a ++ fields b)%list.
Proof.
  induction a as [| c a IH]; cbn [append fields].
  - now rewrite Ascii.eqb_refl.
  - rewrite IH. destruct (Ascii.eqb c comma); [reflexivity |].
    pose proof (fields_not_nil a) as Hne.
    destruct (fields a) as [| f fs]; [contradiction | reflexivity].
Qed.

End SplitFacts.

Module SplitTheorems.

Import Split FmtFacts SplitFacts.
Local Open Scope string_scope.
Local Open Scope nat_scope.

Lemma split_nonempty_fields (str : string) :
  split str = Some (nonempty_fields str).
Proof.
  unfold split.
  apply (split_loop_spec (S (String.length str)) "" str []). lia.
Qed.

Lemma nonempty_fields_tokens (str : string) :
  Forall (fun t => empty t = false /\ comma_free t = true)
         (nonempty_fields str).
Proof.
  unfold nonempty_fields. apply Forall_forall. intros t Ht.
  apply filter_In in Ht. destruct Ht as [Hin Hne]. split.
  - now destruct (empty t).
  - exact (proj1 (Forall_forall _ _) (comma_free_fields str) t Hin).
Qed.

Lemma nonempty_fields_append (a b : string) :
  nonempty_fields (a ++ String comma b)
  = (nonempty_fields a ++ nonempty_fields b)%list.
Proof.
  unfold nonempty_fields. now rewrite fields_append, filter_app.
Qed.

(** C10.  [split] always returns, and what it returns is the list of the
    non-empty maximal comma-free substrings of its input, in order (the
    fields between the commas: joined by commas they give the input back).
    Every token is non-empty and has no comma; an input without a comma,
    if not empty, is the only token; a leading comma, a trailing comma and
    a comma doubled add no token. *)
Theorem split_spec (str : string) :
  exists tokens,
    split str = Some tokens
    /\ tokens = nonempty_fields str
    /\ join (fields str) = str
    /\ Forall (fun t => empty t = false /\ comma_free t = true) tokens
    /\ (comma_free str = true -> str <> "" -> tokens = [str])
    /\ split (String comma str) = Some tokens
    /\ split (str ++ String comma "") = Some tokens
    /\ (forall a b, str = a ++ String comma b ->
          split (a ++ String comma (String comma b)) = Some tokens).
Proof.
  exists (nonempty_fields str).
  split; [apply split_nonempty_fields |].
  split; [reflexivity |].
  split; [apply join_fields |].
  split; [apply nonempty_fields_tokens |].
  split; [| split; [| split]].
  - intros Hfree Hne. unfold nonempty_fields.
    rewrite (fields_comma_free str Hfree). cbn [filter].
    destruct str; [contradiction | reflexivity].
  - rewrite split_nonempty_fields. reflexivity.
  - rewrite split_nonempty_fields, nonempty_fields_append.
    cbn [nonempty_fields fields filter empty negb]. now rewrite app_nil_r.
  - intros a b ->. rewrite split_nonempty_fields.
    rewrite !nonempty_fields_append. reflexivity.
Qed.

Lemma split_spec_witness :
  split ",ab,,cd," = Some ["ab"; "cd"]
  /\ split "abc" = Some ["abc"].
Proof.
  split.
  - destruct (split_spec ",ab,,cd,") as (tokens & -> & -> & _).
    reflexivity.
  - destruct (split_spec "abc") as (tokens & -> & _ & _ & _ & Hone & _).
    f_equal. apply Hone; [reflexivity | discriminate].
Defined.

End SplitTheorems.

(** ** The definitions at work on the reference runtime *)

Module Runs.

Import Fmt FmtFacts Spec Inputs.
Local Open Scope string_scope.
Local Open Scope Z_scope.

Lemma ExtractArrayShape_spec_witness :
  fst (ExtractArrayShape Js.runtime false "utils.h"
         (Js.Array [Js.Number 2; Js.Number 3]) [] Js.initial_world)
  = [2; 3]
  /\ fst (ExtractArrayShape Js.runtime false "utils.h"
            (Js.Array [Js.Number 2; Js.Str "x"; Js.Number 3]) [7]
            Js.initial_world)
     = [7; 2]
  /\ fst (ExtractArrayShape Js.runtime false "utils.h" Js.Object [7]
            Js.initial_world)
     = [7].
Proof.
  split; [| split].
  - destruct (ExtractArrayShape_spec _ _ Js.runtime false "utils.h"
                (Js.Array [Js.Number 2; Js.Number 3]) [] Js.initial_world 2)
      as (_ & H & _).
    + cbn. lia.
    + intros [| [| i]] Hi; [split; reflexivity | split; reflexivity | lia].
    + destruct (H eq_refl eq_refl) as (Heq & _). rewrite Heq. reflexivity.
  - destruct (ExtractArrayShape_spec _ _ Js.runtime false "utils.h"
                (Js.Array [Js.Number 2; Js.Str "x"; Js.Number 3]) [7]
                Js.initial_world 1)
      as (_ & _ & H).
    + cbn. lia.
    + intros [| i] Hi; [split; reflexivity | lia].
    + destruct H as (Heq & _).
      * reflexivity.
      * cbn. lia.
      * intros [_ Hbad]. discriminate Hbad.
      * rewrite Heq. reflexivity.
  - destruct (ExtractArrayShape_spec _ _ Js.runtime false "utils.h"
                Js.Object [7] Js.initial_world 0)
      as (H & _).
    + cbn. lia.
    + intros i Hi. lia.
    + destruct H as (Heq & _); [discriminate | exact Heq].
Defined.

Lemma status_translators_formats_witness :
  raises after_array_expected
    (snd (EnsureNapiOK Js.runtime false napi_array_expected "binding.cc" 10
            after_array_expected))
    ("Invalid napi_status: An array was expected" ++ LF)
  /\ raises after_array_expected
       (snd (EnsureTFOK Js.runtime false not_found "binding.cc" 11
               after_array_expected))
       ("Invalid TF_Status: 5" ++ LF ++ "Message: no such op").
Proof.
  split.
  - apply (status_translators_formats _ _ Js.runtime false napi_array_expected
             not_found "binding.cc" 10 after_array_expected);
      discriminate.
  - apply (status_translators_formats _ _ Js.runtime false napi_array_expected
             not_found "binding.cc" 11 after_array_expected);
      discriminate.
Defined.

(** C3, as stated, fails for the boundary-call domain: the message
    [EnsureNapiOK] raises for [napi_array_expected] is
    [Invalid napi_status: An array was expected\n]; it has no [Message:]
    line and is of the form [Invalid napi_status: <code>\nMessage: <message>]
    for no code and message. *)
Lemma napi_message_not_uniform :
  exists msg,
    thrown (snd (EnsureNapiOK Js.runtime false napi_array_expected
                   "binding.cc" 10 after_array_expected)) = [msg]
    /\ msg = "Invalid napi_status: An array was expected" ++ LF
    /\ ~ occurs_in "Message:" msg
    /\ ~ exists code message, msg = uniform_format "napi_status" code message.
Proof.
  eexists. split; [reflexivity |]. split; [reflexivity |].
  assert (Hno : ~ occurs_in "Message:"
                    ("Invalid napi_status: An array was expected" ++ LF)).
  { intros H. apply occurs_in_occursb in H; [| discriminate].
    vm_compute in H. discriminate. }
  split; [exact Hno |].
  intros (code & message & H). apply Hno.
  assert (H' : "Invalid napi_status: An array was expected" ++ LF
               = uniform_format "napi_status" code message) by exact H.
  rewrite H'. unfold uniform_format.
  do 5 apply occurs_in_append_r.
  change "Message: " with ("Message:" ++ " ").
  rewrite append_assoc. apply occurs_in_append_l, occurs_in_refl.
Qed.

Lemma EnsureTFOK_spec_witness :
  fst (EnsureTFOK Js.runtime false not_found "binding.cc" 11
         Js.initial_world) = false
  /\ occurs_in "5"
       ("Invalid TF_Status: 5" ++ LF ++ "Message: no such op")
  /\ occurs_in "no such op"
       ("Invalid TF_Status: 5" ++ LF ++ "Message: no such op").
Proof.
  destruct (EnsureTFOK_spec _ _ Js.runtime false not_found "binding.cc" 11
              Js.initial_world) as (_ & _ & H).
  destruct H as (Hf & _ & Hcode & Hfit); [discriminate |].
  destruct Hfit as (_ & Hmsg); [vm_compute; lia |].
  split; [exact Hf |]. split; [exact Hcode | exact Hmsg].
Defined.

(** C4, as stated, fails for a long runtime message: for the non-OK
    status [long_status] the one message raised is 499 characters long and
    does not contain the 600 characters of the runtime's text. *)
Lemma EnsureTFOK_long_message_cut :
  TF_GetCode (status long_status) <> TF_OK
  /\ exists msg,
       thrown (snd (EnsureTFOK Js.runtime false long_status "binding.cc" 11
                      Js.initial_world)) = [msg]
       /\ String.length msg = 499%nat
       /\ ~ occurs_in (TF_Message (status long_status)) msg.
Proof.
  split; [discriminate |].
  exists (vsnprintf 500 ("Invalid TF_Status: %u" ++ LF ++ "Message: %s")
            [ArgUnsigned (TF_Code_value TF_INVALID_ARGUMENT);
             ArgString long_message]).
  split; [reflexivity |].
  assert (Hlen : String.length
                   (vsnprintf 500
                      ("Invalid TF_Status: %u" ++ LF ++ "Message: %s")
                      [ArgUnsigned (TF_Code_value TF_INVALID_ARGUMENT);
                       ArgString long_message]) = 499%nat)
    by (vm_compute; reflexivity).
  split; [exact Hlen |].
  intros H. apply occurs_in_length in H. rewrite Hlen in H.
  apply Nat.leb_le in H. vm_compute in H. discriminate.
Qed.

Lemma EnsureValueIsLessThan_spec_witness :
  fst (EnsureValueIsLessThan Js.runtime false 5 4 "binding.cc" 12
         Js.initial_world) = false
  /\ raises Js.initial_world
       (snd (EnsureValueIsLessThan Js.runtime false 5 4 "binding.cc" 12
               Js.initial_world))
       "Argument is greater than max: 5 > 4"
  /\ EnsureValueIsLessThan Js.runtime false 4 4 "binding.cc" 12
       Js.initial_world = (true, Js.initial_world).
Proof.
  split; [| split].
  - destruct (EnsureValueIsLessThan_spec _ _ Js.runtime false 5 4 "binding.cc"
                12 Js.initial_world) as (H & _).
    + unfold Int.is_uint32, Int.UINT32_MOD. lia.
    + unfold Int.is_uint32, Int.UINT32_MOD. lia.
    + apply H. lia.
  - destruct (EnsureValueIsLessThan_spec _ _ Js.runtime false 5 4 "binding.cc"
                12 Js.initial_world) as (_ & H & _).
    + unfold Int.is_uint32, Int.UINT32_MOD. lia.
    + unfold Int.is_uint32, Int.UINT32_MOD. lia.
    + destruct H as [Hr _]; [lia | exact Hr].
  - destruct (EnsureValueIsLessThan_spec _ _ Js.runtime false 4 4 "binding.cc"
                12 Js.initial_world) as (_ & _ & H).
    + unfold Int.is_uint32, Int.UINT32_MOD. lia.
    + unfold Int.is_uint32, Int.UINT32_MOD. lia.
    + destruct H as [Hf Hs]; [lia |].
      destruct (EnsureValueIsLessThan Js.runtime false 4 4 "binding.cc" 12
                  Js.initial_world) as [b w'].
      cbn [fst snd] in *. now subst.
Defined.

Lemma EnsureConstructorCall_spec_witness :
  fst (EnsureConstructorCall Js.runtime false "utils.h" (Js.mkInfo None)
         "binding.cc" 13 Js.initial_world) = false
  /\ raises Js.initial_world
       (snd (EnsureConstructorCall Js.runtime false "utils.h" (Js.mkInfo None)
               "binding.cc" 13 Js.initial_world))
       "Function not used as a constructor!"
  /\ fst (EnsureConstructorCall Js.runtime false "utils.h"
            (Js.mkInfo (Some Js.Function)) "binding.cc" 13 Js.initial_world)
     = true.
Proof.
  pose proof (EnsureConstructorCall_spec _ _ Js.runtime false "utils.h"
                (Js.mkInfo None) None "binding.cc" 13 Js.initial_world
                eq_refl) as (Hf & Hr & _).
  pose proof (EnsureConstructorCall_spec _ _ Js.runtime false "utils.h"
                (Js.mkInfo (Some Js.Function)) (Some Js.Function)
                "binding.cc" 13 Js.initial_world eq_refl) as (Ht & _).
  split; [exact Hf |]. split; [exact Hr | exact Ht].
Defined.

(** C8 fails on the path where the copying call fails: on the runtime
    whose copy into a buffer reports [napi_generic_failure],
    [GetStringParam] on the string [hello] raises, returns that status
    and leaves the six-byte buffer allocated; on the reference runtime it
    returns the string and the heap is empty again. *)
Theorem GetStringParam_leaks_buffer :
  (let out := GetStringParam Js.copy_failing_runtime false "utils.h"
                (Js.Str "hello") "" Js.initial_world in
   fst out = (napi_generic_failure, "")
   /\ heap (snd out) = [(0%nat, mkBlock 6 "")]
   /\ mem_avail (snd out) = mem_avail Js.initial_world - 6)
  /\ (let out := GetStringParam Js.runtime false "utils.h"
                   (Js.Str "hello") "" Js.initial_world in
      fst out = (napi_ok, "hello")
      /\ heap (snd out) = []
      /\ mem_avail (snd out) = mem_avail Js.initial_world).
Proof.
  cbv zeta. repeat split; vm_compute; reflexivity.
Qed.

(** C9 fails for the number validator: rejecting an object, it raises
    [Argument is not a string!], the very message the string validator
    raises for the same value. *)
Theorem EnsureValueIsNumber_reports_string_text :
  fst (EnsureValueIsNumber Js.runtime false "utils.h" Js.Object
         "binding.cc" 14 Js.initial_world) = false
  /\ thrown (snd (EnsureValueIsNumber Js.runtime false "utils.h" Js.Object
                    "binding.cc" 14 Js.initial_world))
     = ["Argument is not a string!"]
  /\ thrown (snd (EnsureValueIsString Js.runtime false "utils.h" Js.Object
                    "binding.cc" 14 Js.initial_world))
     = thrown (snd (EnsureValueIsNumber Js.runtime false "utils.h" Js.Object
                      "binding.cc" 14 Js.initial_world))
  /\ thrown (snd (EnsureValueIsArray Js.runtime false "utils.h" Js.Object
                    "binding.cc" 14 Js.initial_world))
     = ["Argument is not an array!"].
Proof.
  repeat split.
Qed.

End Runs.

(** ** More on the tensor helpers *)

Module TensorMore.

Import Int Mem IntFacts MemFacts TensorFacts Spec.

Lemma product_app (a b : list Z) : product (a ++ b) = product a * product b.
Proof.
  induction a as [| d a IH]; cbn [app product fold_right].
  - fold (product b). ring.
  - fold (product (a ++ b)) (product a). rewrite IH. ring.
Qed.

Lemma to_size_t_range (x : Z) : 0 <= to_size_t x <= SIZE_MAX.
Proof.
  unfold to_size_t, SIZE_MAX, UINT64_MOD.
  pose proof (Z.mod_pos_bound x (2 ^ 64)). lia.
Qed.

(** X1. [GetTensorNumElements] is the product of the dimensions reduced
    modulo [2^64]: it always lies in the [size_t] range, it is zero as soon
    as one dimension is zero, and for a shape made of two shapes put end to
    end it is the ([size_t]) product of their two counts. *)
Theorem GetTensorNumElements_wraps (t : TF_Tensor) :
  GetTensorNumElements t = product (tensor_dims t) mod 2 ^ 64
  /\ 0 <= GetTensorNumElements t <= SIZE_MAX
  /\ (In 0 (tensor_dims t) -> GetTensorNumElements t = 0)
  /\ (forall t1 t2,
        tensor_dims t = tensor_dims t1 ++ tensor_dims t2 ->
        GetTensorNumElements t
        = to_size_t (GetTensorNumElements t1 * GetTensorNumElements t2)).
Proof.
  rewrite GetTensorNumElements_product.
  split; [reflexivity |]. split; [apply to_size_t_range |]. split.
  - intros H. rewrite (product_zero _ H). reflexivity.
  - intros t1 t2 H. rewrite !GetTensorNumElements_product, H, product_app.
    now rewrite to_size_t_mul_l, to_size_t_mul_r.
Qed.

Lemma GetTensorNumElements_wraps_witness :
  GetTensorNumElements (mkTensor TF_INT32 [4294967296; 4294967296; 3] []
                          RuntimeDeallocator) = 0
  /\ GetTensorNumElements (mkTensor TF_INT32 [2; 0; 5] [] RuntimeDeallocator) = 0.
Proof.
  split.
  - destruct (GetTensorNumElements_wraps
                (mkTensor TF_INT32 [4294967296; 4294967296; 3] []
                   RuntimeDeallocator)) as (H & _).
    rewrite H. reflexivity.
  - destruct (GetTensorNumElements_wraps
                (mkTensor TF_INT32 [2; 0; 5] [] RuntimeDeallocator))
      as (_ & _ & H & _).
    apply H. cbn. tauto.
Defined.

(** The byte count [Int32Tensor] computes. *)
Lemma Int32Tensor_len (dims : list Z) :
  exists r,
    Int32Tensor_loop (List.length dims) 0 dims 1 = Some r
    /\ to_size_t (sizeof_int32_t * to_size_t r)
       = to_size_t (4 * product dims).
Proof.
  destruct (Int32Tensor_loop_spec [] dims 1) as (r & Hr & Hval).
  cbn [List.length Z.of_nat app] in Hr. exists r. split; [exact Hr |].
  rewrite Hval. replace (1 * product dims) with (product dims) by ring.
  unfold sizeof_int32_t. now rewrite to_size_t_mul_r.
Qed.

(** What [Int32Tensor] returns, for any input: a tensor exactly when the
    copy stays inside [values], and then the first bytes of [values]. *)
Lemma Int32Tensor_result (fill : nat -> Z) (dims values : list Z) :
  let len := to_size_t (4 * product dims) in
  Int32Tensor fill dims (Z.of_nat (List.length dims)) values
  = if len <=? Z.of_nat (List.length (bytes_of_int32s values))
    then Some (mkTensor TF_INT32 dims
                 (firstn (Z.to_nat len) (bytes_of_int32s values))
                 RuntimeDeallocator)
    else None.
Proof.
  cbv zeta. unfold Int32Tensor. rewrite Nat2Z.id.
  destruct (Int32Tensor_len dims) as (r & Hr & Hlen). rewrite Hr, Hlen.
  pose proof (to_size_t_range (4 * product dims)) as Hrange.
  unfold memcpy, TF_TensorData, TF_AllocateTensor. cbn [tensor_data].
  rewrite length_map, length_seq, Nat2Z.id, firstn_all.
  replace (to_size_t (4 * product dims)
           <=? Z.of_nat (Z.to_nat (to_size_t (4 * product dims))))
    with true by (symmetry; apply Z.leb_le; lia).
  rewrite andb_true_r.
  destruct (to_size_t (4 * product dims)
            <=? Z.of_nat (List.length (bytes_of_int32s values)));
    [| reflexivity].
  cbn [tensor_dtype tensor_dims tensor_dealloc].
  rewrite skipn_all2 by (rewrite length_map, length_seq; lia).
  now rewrite app_nil_r.
Qed.

(** X2. For every input, [Int32Tensor] returns a tensor exactly when the
    wrapped byte count [(4 * P) mod 2^64] does not exceed the bytes of
    [values] (otherwise [memcpy] would read past the array).  The tensor
    it returns has type [TF_INT32], the dimensions given, a buffer of
    exactly that many bytes, and is the same whatever the allocated
    buffer held before: no byte of it is left uninitialised. *)
Theorem Int32Tensor_defined_iff (fill : nat -> Z) (dims values : list Z) :
  let len := to_size_t (4 * product dims) in
  let out := Int32Tensor fill dims (Z.of_nat (List.length dims)) values in
  (out <> None <-> len <= 4 * Z.of_nat (List.length values))
  /\ (forall t, out = Some t ->
        tensor_dtype t = TF_INT32
        /\ tensor_dims t = dims
        /\ tensor_dealloc t = RuntimeDeallocator
        /\ Z.of_nat (List.length (tensor_data t)) = len)
  /\ (forall fill',
        Int32Tensor fill' dims (Z.of_nat (List.length dims)) values = out).
Proof.
  cbv zeta. rewrite Int32Tensor_result. cbv zeta.
  rewrite bytes_of_int32s_length.
  pose proof (to_size_t_range (4 * product dims)) as Hrange.
  destruct (to_size_t (4 * product dims)
            <=? Z.of_nat (4 * List.length values)) eqn:E.
  - apply Z.leb_le in E. split; [split; [lia | discriminate] |]. split.
    + intros t Ht.
      assert (Heq : t = mkTensor TF_INT32 dims
                          (firstn (Z.to_nat (to_size_t (4 * product dims)))
                             (bytes_of_int32s values)) RuntimeDeallocator)
        by congruence.
      rewrite Heq.
      cbn [tensor_dtype tensor_dims tensor_dealloc tensor_data].
      repeat split. rewrite length_firstn, bytes_of_int32s_length. lia.
    + intros fill'. rewrite Int32Tensor_result. cbv zeta.
      rewrite bytes_of_int32s_length.
      replace (to_size_t (4 * product dims)
               <=? Z.of_nat (4 * List.length values)) with true
        by (symmetry; apply Z.leb_le; lia).
      reflexivity.
  - apply Z.leb_gt in E. split; [split; [congruence | lia] |]. split.
    + discriminate.
    + intros fill'. rewrite Int32Tensor_result. cbv zeta.
      rewrite bytes_of_int32s_length.
      replace (to_size_t (4 * product dims)
               <=? Z.of_nat (4 * List.length values)) with false
        by (symmetry; apply Z.leb_gt; lia).
      reflexivity.
Qed.

Lemma Int32Tensor_defined_iff_witness :
  Int32Tensor (fun _ => 170) [2; 3] 2 [1; 2; 3; 4; 5] = None
  /\ Int32Tensor (fun _ => 170) [2; 2] 2 [1; 2; 3; 4; 5]
     = Int32Tensor (fun _ => 0) [2; 2] 2 [1; 2; 3; 4; 5].
Proof.
  split.
  - destruct (Int32Tensor_defined_iff (fun _ => 170) [2; 3] [1; 2; 3; 4; 5])
      as (H & _).
    destruct (Int32Tensor (fun _ => 170) [2; 3] (Z.of_nat (List.length [2; 3]))
                [1; 2; 3; 4; 5]) eqn:E; [| exact E].
    exfalso. assert (Hne : Some t <> None) by discriminate.
    apply H in Hne. vm_compute in Hne. apply Hne. reflexivity.
  - destruct (Int32Tensor_defined_iff (fun _ => 0) [2; 2] [1; 2; 3; 4; 5])
      as (_ & _ & H).
    exact (H (fun _ => 170)).
Defined.

(** X3. For a vector of [n] int32 values (whose [4 * n] bytes are a
    [size_t]), [Int32Tensor(values)] returns a rank-1 tensor of dimension
    [n] whose element count is [n] and whose elements are the vector. *)
Theorem Int32Tensor_vector_roundtrip (fill : nat -> Z) (values : list Z) :
  Forall is_int32 values ->
  4 * Z.of_nat (List.length values) <= SIZE_MAX ->
  exists t,
    Int32Tensor_vector fill values = Some t
    /\ tensor_dims t = [Z.of_nat (List.length values)]
    /\ GetTensorNumElements t = Z.of_nat (List.length values)
    /\ tensor_int32_elements t = values.
Proof.
  intros Hvals Hsize. unfold Int32Tensor_vector.
  change 1 with (Z.of_nat (List.length [Z.of_nat (List.length values)])).
  rewrite Int32Tensor_result. cbv zeta.
  assert (Hp : product [Z.of_nat (List.length values)]
               = Z.of_nat (List.length values))
    by (cbn [product fold_right]; ring).
  rewrite Hp, to_size_t_small by lia.
  rewrite bytes_of_int32s_length.
  replace (4 * Z.of_nat (List.length values)
           <=? Z.of_nat (4 * List.length values)) with true
    by (symmetry; apply Z.leb_le; lia).
  eexists. split; [reflexivity |].
  cbn [tensor_dims]. split; [reflexivity |]. split.
  - rewrite GetTensorNumElements_product. cbn [tensor_dims].
    rewrite Hp. apply to_size_t_small. lia.
  - unfold tensor_int32_elements, TF_TensorData. cbn [tensor_data].
    replace (Z.to_nat (4 * Z.of_nat (List.length values)))
      with (4 * List.length values)%nat by lia.
    rewrite firstn_bytes_of_int32s, firstn_all.
    now apply int32s_roundtrip.
Qed.

Lemma Int32Tensor_vector_roundtrip_witness :
  exists t,
    Int32Tensor_vector (fun _ => 170) [7; -8; 9] = Some t
    /\ tensor_dims t = [3]
    /\ GetTensorNumElements t = 3
    /\ tensor_int32_elements t = [7; -8; 9].
Proof.
  apply (Int32Tensor_vector_roundtrip (fun _ => 170) [7; -8; 9]).
  - repeat constructor; unfold INT32_MIN, INT32_MAX; lia.
  - vm_compute. discriminate.
Defined.

End TensorMore.

(** ** More on [split] *)

Module SplitMore.

Import Split FmtFacts SplitFacts Contracts.
Local Open Scope string_scope.
Local Open Scope nat_scope.

Lemma split_is_nonempty_fields (str : string) :
  split str = Some (nonempty_fields str).
Proof.
  unfold split.
  apply (split_loop_spec (S (String.length str)) "" str []). lia.
Qed.

(** X4. Splitting two strings put together with a comma between them
    gives the tokens of the first followed by the tokens of the second. *)
Theorem split_append (a b : string) :
  exists ta tb,
    split a = Some ta
    /\ split b = Some tb
    /\ split (a ++ String comma b) = Some (ta ++ tb)%list.
Proof.
  exists (nonempty_fields a), (nonempty_fields b).
  rewrite !split_is_nonempty_fields.
  unfold nonempty_fields. now rewrite fields_append, filter_app.
Qed.

Lemma nonempty_fields_token (t : string) :
  empty t = false -> comma_free t = true -> nonempty_fields t = [t].
Proof.
  intros Hne Hfree. unfold nonempty_fields.
  rewrite (fields_comma_free t Hfree). cbn [filter]. now rewrite Hne.
Qed.

(** X5. Joining non-empty comma-free tokens with commas and splitting the
    result gives the tokens back. *)
Theorem split_join (tokens : list string) :
  Forall (fun t => empty t = false /\ comma_free t = true) tokens ->
  split (join tokens) = Some tokens.
Proof.
  intros H. rewrite split_is_nonempty_fields. f_equal.
  induction H as [| t ts [Hne Hfree] Hts IH]; [reflexivity |].
  destruct ts as [| t' ts].
  - cbn [join]. now apply nonempty_fields_token.
  - change (join (t :: t' :: ts)) with (t ++ String comma (join (t' :: ts))).
    unfold nonempty_fields in *. rewrite fields_append, filter_app, IH.
    fold (nonempty_fields t). now rewrite nonempty_fields_token.
Qed.

Lemma split_join_witness :
  split (join ["ab"; "c"; "def"]) = Some ["ab"; "c"; "def"].
Proof.
  apply split_join. repeat constructor.
Defined.

Lemma total_length_app (a b : list string) :
  total_length (a ++ b) = total_length a + total_length b.
Proof.
  induction a as [| t a IH]; cbn [app total_length fold_right]; [reflexivity |].
  fold (total_length (a ++ b)) (total_length a). rewrite IH. lia.
Qed.

Lemma total_length_nonempty (l : list string) :
  total_length (filter (fun t => negb (empty t)) l) = total_length l.
Proof.
  induction l as [| t l IH]; [reflexivity |].
  cbn [filter]. destruct t as [| c t]; cbn [empty negb total_length fold_right].
  - exact IH.
  - fold (total_length (filter (fun t => negb (empty t)) l)) (total_length l).
    now rewrite IH.
Qed.

Lemma total_length_fields (s : string) :
  total_length (fields s) + count_commas s = String.length s.
Proof.
  induction s as [| c s IH]; [reflexivity |].
  cbn [fields count_commas String.length].
  destruct (Ascii.eqb c comma).
  - cbn [total_length fold_right String.length].
    fold (total_length (fields s)). lia.
  - pose proof (fields_not_nil s) as Hne.
    destruct (fields s) as [| f fs]; [contradiction |].
    cbn [total_length fold_right String.length] in *.
    fold (total_length fs) in *. lia.
Qed.

(** X6. [split] drops the commas and nothing else: the lengths of the
    tokens and the number of commas of the input add up to the length of
    the input. *)
Theorem split_keeps_characters (str : string) :
  exists tokens,
    split str = Some tokens
    /\ total_length tokens + count_commas str = String.length str.
Proof.
  exists (nonempty_fields str). split; [apply split_is_nonempty_fields |].
  unfold nonempty_fields. rewrite total_length_nonempty.
  apply total_length_fields.
Qed.

End SplitMore.

(** ** More on the validators and translators *)

Section ValidatorFacts.

Import Fmt FmtFacts Spec Contracts.
Local Open Scope Z_scope.

Variables napi_value napi_callback_info : Type.
Variable env : NodeApi napi_value napi_callback_info.
Variable DEBUG : bool.
Variable FILE__ : string.

(** [NapiThrowError] as one step: the new state, the message raised and
    what reaches [stderr]. *)
Lemma NapiThrowError_run (file : string) (line : Z) (fmt : string)
    (args : list printf_arg) (w : World) :
  exists w',
    NapiThrowError env DEBUG file line fmt args w = (tt, w')
    /\ raises w w' (vsnprintf 500 fmt args)
    /\ same_heap w w'
    /\ stderr w'
       = if DEBUG
         then (stderr w
               ++ [format ("** -%s:%zu" ++ LF ++ "-- %s" ++ LF)
                     [ArgString file; ArgSize line;
                      ArgString (vsnprintf 500 fmt args)]])%list
         else stderr w.
Proof.
  unfold NapiThrowError, DEBUG_LOG, bind, raises, same_heap.
  destruct DEBUG; eexists; (split; [reflexivity |]); cbn; repeat split.
Qed.

Lemma vsnprintf_500 (fmt : string) (args : list printf_arg) :
  (String.length (vsnprintf 500 fmt args) <= 499)%nat.
Proof. apply (vsnprintf_cut 500). Qed.

(** [EnsureNapiOK] as one step. *)
Lemma EnsureNapiOK_run (st : napi_status) (file : string) (line : Z)
    (w : World) :
  (st = napi_ok /\ EnsureNapiOK env DEBUG st file line w = (true, w))
  \/ (st <> napi_ok
      /\ exists w',
           EnsureNapiOK env DEBUG st file line w = (false, w')
           /\ raises w w' (substring 0 499 (napi_failure_text env w))
           /\ same_heap w w').
Proof.
  destruct (napi_status_eqb st napi_ok) eqn:E.
  - apply napi_status_eqb_ok in E. subst st. left. split; reflexivity.
  - right.
    assert (Hst : st <> napi_ok).
    { intros H. apply napi_status_eqb_ok in H. congruence. }
    split; [exact Hst |].
    destruct (EnsureNapiOK_fail _ _ env DEBUG st file line w Hst)
      as (Hf & Hr & Hh).
    destruct (EnsureNapiOK env DEBUG st file line w) as [b w'].
    cbn [fst snd] in *. subst b. exists w'.
    split; [reflexivity |]. split; assumption.
Qed.

Lemma same_heap_trans (w1 w2 w3 : World) :
  same_heap w1 w2 -> same_heap w2 w3 -> same_heap w1 w3.
Proof.
  unfold same_heap. intros (A1 & A2 & A3) (B1 & B2 & B3).
  repeat split; congruence.
Qed.

(** A check made of a status test and a raise: the three ways it ends. *)
Lemma checked_call_run (st : napi_status) (accepted : bool) (check_line : Z)
    (text file : string) (line : Z) (w : World) :
  let c :=
    ENSURE_NAPI_OK_RETVAL env DEBUG FILE__ st check_line false
      (bind (if negb accepted
             then NapiThrowError env DEBUG file line text []
             else ret tt)
            (fun _ => ret accepted)) in
  (st <> napi_ok
   /\ exists w',
        c w = (false, w')
        /\ raises w w' (substring 0 499 (napi_failure_text env w))
        /\ same_heap w w')
  \/ (st = napi_ok /\ accepted = true /\ c w = (true, w))
  \/ (st = napi_ok /\ accepted = false
      /\ exists w',
           c w = (false, w')
           /\ raises w w' (vsnprintf 500 text [])
           /\ same_heap w w').
Proof.
  cbv zeta. unfold ENSURE_NAPI_OK_RETVAL, return_unless, bind, ret.
  destruct (EnsureNapiOK_run st FILE__ check_line w)
    as [[-> Heq] | (Hst & w' & Heq & Hr & Hh)]; rewrite !Heq.
  - right. destruct accepted; cbn [negb].
    + left. repeat split.
    + right. split; [reflexivity |]. split; [reflexivity |].
      destruct (NapiThrowError_run file line text [] w)
        as (w' & Hrun & Hr & Hh & _).
      rewrite !Hrun. exists w'. split; [reflexivity |]. split; assumption.
  - left. split; [exact Hst |]. exists w'.
    split; [reflexivity |]. split; assumption.
Qed.

(** Such a check keeps the contract of the validators. *)
Lemma checked_call_contract (st : napi_status) (accepted : bool)
    (check_line : Z) (text file : string) (line : Z) (w0 w : World) :
  thrown w = thrown w0 -> same_heap w0 w ->
  let out :=
    ENSURE_NAPI_OK_RETVAL env DEBUG FILE__ st check_line false
      (bind (if negb accepted
             then NapiThrowError env DEBUG file line text []
             else ret tt)
            (fun _ => ret accepted)) w in
  same_heap w0 (snd out)
  /\ if fst out
     then thrown (snd out) = thrown w0
     else exists msg,
            raises w0 (snd out) msg /\ (String.length msg <= 499)%nat.
Proof.
  intros Hth Hh. cbv zeta.
  destruct (checked_call_run st accepted check_line text file line w)
    as [(_ & w' & Heq & Hr & Hh') | [(_ & _ & Heq) | (_ & _ & w' & Heq & Hr & Hh')]];
    cbv zeta in Heq; rewrite Heq; cbn [fst snd].
  - split; [eapply same_heap_trans; eassumption |].
    eexists. split; [| apply substring_length_le].
    unfold raises in *. rewrite <- Hth. exact Hr.
  - split; assumption.
  - split; [eapply same_heap_trans; eassumption |].
    eexists. split; [| apply vsnprintf_500].
    unfold raises in *. rewrite <- Hth. exact Hr.
Qed.

Lemma EnsureValueIsObject_shape :
  EnsureValueIsObject env DEBUG FILE__
  = typeof_check env DEBUG FILE__ napi_object 119 "Argument is not an object!".
Proof. reflexivity. Qed.

Lemma EnsureValueIsString_shape :
  EnsureValueIsString env DEBUG FILE__
  = typeof_check env DEBUG FILE__ napi_string 135 "Argument is not a string!".
Proof. reflexivity. Qed.

Lemma EnsureValueIsNumber_shape :
  EnsureValueIsNumber env DEBUG FILE__
  = typeof_check env DEBUG FILE__ napi_number 151 "Argument is not a string!".
Proof. reflexivity. Qed.

Lemma EnsureValueIsArray_shape :
  EnsureValueIsArray env DEBUG FILE__
  = question_check env DEBUG FILE__ (napi_is_array env) 167
      "Argument is not an array!".
Proof. reflexivity. Qed.

Lemma EnsureValueIsTypedArray_shape :
  EnsureValueIsTypedArray env DEBUG FILE__
  = question_check env DEBUG FILE__ (napi_is_typedarray env) 183
      "Argument is not a typed-array!".
Proof. reflexivity. Qed.

Lemma typeof_check_contract (expected : napi_valuetype) (check_line : Z)
    (text : string) (v : napi_value) (file : string) (line : Z) :
  raises_iff_false
    (typeof_check env DEBUG FILE__ expected check_line text v file line).
Proof.
  intros w. unfold typeof_check, napi_call. unfold bind at 1 3 5.
  apply checked_call_contract; [reflexivity | apply same_heap_set_last_status].
Qed.

Lemma question_check_contract (question : napi_value -> napi_status * bool)
    (check_line : Z) (text : string) (v : napi_value) (file : string)
    (line : Z) :
  raises_iff_false
    (question_check env DEBUG FILE__ question check_line text v file line).
Proof.
  intros w. unfold question_check, napi_call. unfold bind at 1 3 5.
  apply checked_call_contract; [reflexivity | apply same_heap_set_last_status].
Qed.

End ValidatorFacts.

Section ValidatorTheorems.

Import Fmt FmtFacts Spec Contracts.
Local Open Scope Z_scope.

Variables napi_value napi_callback_info : Type.
Variable env : NodeApi napi_value napi_callback_info.
Variable DEBUG : bool.
Variable FILE__ : string.


(** X8. Every [Ensure...] function keeps one contract: it allocates and
    releases nothing, and it returns [false] exactly when it has raised
    one error, of at most 499 characters; returning [true] it has raised
    nothing. *)
Theorem validators_contract (nstatus : napi_status) (tstatus : TF_AutoStatus)
    (info : napi_callback_info) (v : napi_value) (value max : Z)
    (ptr : option nat) (file : string) (line : Z) :
  raises_iff_false (EnsureNapiOK env DEBUG nstatus file line)
  /\ raises_iff_false (EnsureTFOK env DEBUG tstatus file line)
  /\ raises_iff_false (EnsureConstructorCall env DEBUG FILE__ info file line)
  /\ raises_iff_false (EnsureValueIsObject env DEBUG FILE__ v file line)
  /\ raises_iff_false (EnsureValueIsString env DEBUG FILE__ v file line)
  /\ raises_iff_false (EnsureValueIsNumber env DEBUG FILE__ v file line)
  /\ raises_iff_false (EnsureValueIsArray env DEBUG FILE__ v file line)
  /\ raises_iff_false (EnsureValueIsTypedArray env DEBUG FILE__ v file line)
  /\ raises_iff_false (EnsureValueIsLessThan env DEBUG value max file line)
  /\ raises_iff_false (EnsureValueIsNotNull env DEBUG ptr file line).
Proof.
  repeat match goal with |- _ /\ _ => split end.
  - intros w.
    destruct (EnsureNapiOK_run _ _ env DEBUG nstatus file line w)
      as [[_ Heq] | (_ & w' & Heq & Hr & Hh)]; rewrite Heq; cbn [fst snd].
    + split; [apply same_heap_refl | reflexivity].
    + split; [exact Hh |]. eexists. split; [exact Hr |].
      apply substring_length_le.
  - intros w.
    destruct (TF_Code_eqb (TF_GetCode (status tstatus)) TF_OK) eqn:E.
    + apply TF_Code_eqb_ok in E.
      rewrite (EnsureTFOK_ok _ _ env DEBUG tstatus file line w E).
      cbn [fst snd]. split; [apply same_heap_refl | reflexivity].
    + assert (Hne : TF_GetCode (status tstatus) <> TF_OK).
      { intros H. apply TF_Code_eqb_ok in H. congruence. }
      destruct (EnsureTFOK_fail _ _ env DEBUG tstatus file line w Hne)
        as (Hf & Hr & Hh).
      rewrite Hf. split; [exact Hh |]. eexists. split; [exact Hr |].
      apply substring_length_le.
  - intros w. unfold EnsureConstructorCall, napi_call. unfold bind at 1 3 5.
    apply checked_call_contract;
      [reflexivity | apply same_heap_set_last_status].
  - rewrite EnsureValueIsObject_shape. apply typeof_check_contract.
  - rewrite EnsureValueIsString_shape. apply typeof_check_contract.
  - rewrite EnsureValueIsNumber_shape. apply typeof_check_contract.
  - rewrite EnsureValueIsArray_shape. apply question_check_contract.
  - rewrite EnsureValueIsTypedArray_shape. apply question_check_contract.
  - intros w. unfold EnsureValueIsLessThan.
    destruct (max <? value).
    + unfold bind, ret.
      destruct (NapiThrowError_run _ _ env DEBUG file line
                  "Argument is greater than max: %u > %u"
                  [ArgUnsigned value; ArgUnsigned max] w)
        as (w' & Hrun & Hr & Hh & _).
      rewrite Hrun. cbn [fst snd]. split; [exact Hh |].
      eexists. split; [exact Hr | apply vsnprintf_500].
    + unfold ret. cbn [fst snd]. split; [apply same_heap_refl | reflexivity].
  - intros w. unfold EnsureValueIsNotNull, bind, ret.
    destruct ptr as [p |]; cbn [negb fst snd].
    + split; [apply same_heap_refl | reflexivity].
    + destruct (NapiThrowError_run _ _ env DEBUG file line
                  "Argument is null!" [] w) as (w' & Hrun & Hr & Hh & _).
      rewrite Hrun. cbn [fst snd]. split; [exact Hh |].
      eexists. split; [exact Hr | apply vsnprintf_500].
Qed.

End ValidatorTheorems.

Section DecisionTheorems.

Import Fmt FmtFacts Spec Contracts.
Local Open Scope Z_scope.

Variables napi_value napi_callback_info : Type.
Variable env : NodeApi napi_value napi_callback_info.
Variable DEBUG : bool.
Variable FILE__ : string.

Lemma napi_valuetype_eqb_eq (a b : napi_valuetype) :
  napi_valuetype_eqb a b = true <-> a = b.
Proof.
  destruct a, b; cbn; split; intros H; try reflexivity; discriminate.
Qed.

Lemma typeof_check_run (expected : napi_valuetype) (check_line : Z)
    (text : string) (v : napi_value) (file : string) (line : Z) (w : World) :
  let st := fst (napi_typeof env v) in
  let t := snd (napi_typeof env v) in
  let c := typeof_check env DEBUG FILE__ expected check_line text v file line in
  (st <> napi_ok
   /\ exists w', c w = (false, w') /\ raises w w' (napi_text env st))
  \/ (st = napi_ok /\ t = expected /\ c w = (true, set_last_status napi_ok w))
  \/ (st = napi_ok /\ t <> expected
      /\ exists w', c w = (false, w') /\ raises w w' (vsnprintf 500 text [])).
Proof.
  cbv zeta. unfold typeof_check, napi_call. unfold bind at 1 3 5.
  destruct (checked_call_run _ _ env DEBUG FILE__ (fst (napi_typeof env v))
              (napi_valuetype_eqb (snd (napi_typeof env v)) expected)
              check_line text file line
              (set_last_status (fst (napi_typeof env v)) w))
    as [(Hst & w' & Heq & Hr & _) | [(Hst & Hacc & Heq) | (Hst & Hacc & w' & Heq & Hr & _)]];
    cbv zeta in Heq.
  - left. split; [exact Hst |]. exists w'. split; [exact Heq | exact Hr].
  - right. left. split; [exact Hst |].
    split; [now apply napi_valuetype_eqb_eq |]. rewrite Heq, Hst. reflexivity.
  - right. right. split; [exact Hst |]. split.
    + intros H. apply napi_valuetype_eqb_eq in H. congruence.
    + exists w'. split; [exact Heq | exact Hr].
Qed.

Lemma question_check_run (question : napi_value -> napi_status * bool)
    (check_line : Z) (text : string) (v : napi_value) (file : string)
    (line : Z) (w : World) :
  let st := fst (question v) in
  let c := question_check env DEBUG FILE__ question check_line text v file line in
  (st <> napi_ok
   /\ exists w', c w = (false, w') /\ raises w w' (napi_text env st))
  \/ (st = napi_ok /\ snd (question v) = true
      /\ c w = (true, set_last_status napi_ok w))
  \/ (st = napi_ok /\ snd (question v) = false
      /\ exists w', c w = (false, w') /\ raises w w' (vsnprintf 500 text [])).
Proof.
  cbv zeta. unfold question_check, napi_call. unfold bind at 1 3 5.
  destruct (checked_call_run _ _ env DEBUG FILE__ (fst (question v))
              (snd (question v)) check_line text file line
              (set_last_status (fst (question v)) w))
    as [(Hst & w' & Heq & Hr & _) | [(Hst & Hacc & Heq) | (Hst & Hacc & w' & Heq & Hr & _)]];
    cbv zeta in Heq.
  - left. split; [exact Hst |]. exists w'. split; [exact Heq | exact Hr].
  - right. left. split; [exact Hst |]. split; [exact Hacc |].
    rewrite Heq, Hst. reflexivity.
  - right. right. split; [exact Hst |]. split; [exact Hacc |].
    exists w'. split; [exact Heq | exact Hr].
Qed.

(** X9. When [napi_typeof] succeeds with type [t], the object, string and
    number validators return whether [t] is their type; the object and
    string validators raise their own text on a mismatch, and none of
    them raises anything on a match. *)
Theorem type_validators_decide (v : napi_value) (t : napi_valuetype)
    (file : string) (line : Z) (w : World) :
  napi_typeof env v = (napi_ok, t) ->
  let object := EnsureValueIsObject env DEBUG FILE__ v file line w in
  let str := EnsureValueIsString env DEBUG FILE__ v file line w in
  let number := EnsureValueIsNumber env DEBUG FILE__ v file line w in
  (fst object = true <-> t = napi_object)
  /\ (fst str = true <-> t = napi_string)
  /\ (fst number = true <-> t = napi_number)
  /\ (t <> napi_object -> raises w (snd object) "Argument is not an object!")
  /\ (t <> napi_string -> raises w (snd str) "Argument is not a string!")
  /\ (t = napi_object -> thrown (snd object) = thrown w)
  /\ (t = napi_string -> thrown (snd str) = thrown w)
  /\ (t = napi_number -> thrown (snd number) = thrown w).
Proof.
  intros Htype. cbv zeta.
  rewrite EnsureValueIsObject_shape, EnsureValueIsString_shape,
    EnsureValueIsNumber_shape.
  pose proof (typeof_check_run napi_object 119 "Argument is not an object!"
                v file line w) as Ho.
  pose proof (typeof_check_run napi_string 135 "Argument is not a string!"
                v file line w) as Hs.
  pose proof (typeof_check_run napi_number 151 "Argument is not a string!"
                v file line w) as Hn.
  cbv zeta in Ho, Hs, Hn. rewrite Htype in Ho, Hs, Hn. cbn [fst snd] in *.
  destruct Ho as [(Ho & _) | [(_ & Ho & Eo) | (_ & Ho & wo & Eo & Ro)]];
    [contradiction | |];
  (destruct Hs as [(Hs & _) | [(_ & Hs & Es) | (_ & Hs & ws & Es & Rs)]];
    [contradiction | |]);
  (destruct Hn as [(Hn & _) | [(_ & Hn & En) | (_ & Hn & wn & En & Rn)]];
    [contradiction | |]);
  rewrite Eo, Es, En; cbn [fst snd];
  repeat match goal with |- _ /\ _ => split end;
  try (split; intros; congruence);
  try (intros; congruence);
  try (intros; reflexivity);
  try (intros; assumption).
Qed.

(** X10. When [napi_is_array] and [napi_is_typedarray] succeed, the array
    validators return the runtime's answer; on a [false] answer each raises
    its own text, on a [true] answer nothing. *)
Theorem array_validators_decide (v : napi_value) (is_array is_typed : bool)
    (file : string) (line : Z) (w : World) :
  napi_is_array env v = (napi_ok, is_array) ->
  napi_is_typedarray env v = (napi_ok, is_typed) ->
  let array := EnsureValueIsArray env DEBUG FILE__ v file line w in
  let typed := EnsureValueIsTypedArray env DEBUG FILE__ v file line w in
  fst array = is_array
  /\ fst typed = is_typed
  /\ (is_array = false -> raises w (snd array) "Argument is not an array!")
  /\ (is_typed = false -> raises w (snd typed) "Argument is not a typed-array!")
  /\ (is_array = true -> thrown (snd array) = thrown w)
  /\ (is_typed = true -> thrown (snd typed) = thrown w).
Proof.
  intros Ha Ht. cbv zeta.
  rewrite EnsureValueIsArray_shape, EnsureValueIsTypedArray_shape.
  pose proof (question_check_run (napi_is_array env) 167
                "Argument is not an array!" v file line w) as Hqa.
  pose proof (question_check_run (napi_is_typedarray env) 183
                "Argument is not a typed-array!" v file line w) as Hqt.
  cbv zeta in Hqa, Hqt. rewrite Ha in Hqa. rewrite Ht in Hqt.
  cbn [fst snd] in *.
  destruct Hqa as [(Hqa & _) | [(_ & Hqa & Ea) | (_ & Hqa & wa & Ea & Ra)]];
    [contradiction | |];
  (destruct Hqt as [(Hqt & _) | [(_ & Hqt & Et) | (_ & Hqt & wt & Et & Rt)]];
    [contradiction | |]);
  rewrite Ea, Et; cbn [fst snd]; subst;
  repeat match goal with |- _ /\ _ => split end;
  try reflexivity;
  try (intros; congruence);
  try (intros; reflexivity);
  try (intros; assumption).
Qed.

End DecisionTheorems.

Section FailureTheorems.

Import Fmt FmtFacts Spec Contracts.
Local Open Scope Z_scope.

Variables napi_value napi_callback_info : Type.
Variable env : NodeApi napi_value napi_callback_info.
Variable DEBUG : bool.
Variable FILE__ : string.

(** X11. When the boundary call behind a validator fails with status
    [st], the validator returns [false] and raises the text of
    [EnsureNapiOK] for [st] (the runtime's message, or [unknown]), not its
    own text: the five validators that query the runtime then all raise
    the same message. *)
Theorem validators_report_boundary_failure (v : napi_value)
    (file : string) (line : Z) (w : World) :
  (fst (napi_typeof env v) <> napi_ok ->
   let msg := napi_text env (fst (napi_typeof env v)) in
   let object := EnsureValueIsObject env DEBUG FILE__ v file line w in
   let str := EnsureValueIsString env DEBUG FILE__ v file line w in
   let number := EnsureValueIsNumber env DEBUG FILE__ v file line w in
   fst object = false /\ raises w (snd object) msg
   /\ fst str = false /\ raises w (snd str) msg
   /\ fst number = false /\ raises w (snd number) msg)
  /\ (fst (napi_is_array env v) <> napi_ok ->
      let array := EnsureValueIsArray env DEBUG FILE__ v file line w in
      fst array = false
      /\ raises w (snd array) (napi_text env (fst (napi_is_array env v))))
  /\ (fst (napi_is_typedarray env v) <> napi_ok ->
      let typed := EnsureValueIsTypedArray env DEBUG FILE__ v file line w in
      fst typed = false
      /\ raises w (snd typed)
           (napi_text env (fst (napi_is_typedarray env v)))).
Proof.
  split; [| split]; intros Hfail; cbv zeta.
  - rewrite EnsureValueIsObject_shape, EnsureValueIsString_shape,
      EnsureValueIsNumber_shape.
    destruct (typeof_check_run _ _ env DEBUG FILE__ napi_object 119
                "Argument is not an object!" v file line w)
      as [(_ & wo & Eo & Ro) | [(Ho & _) | (Ho & _)]]; try contradiction.
    destruct (typeof_check_run _ _ env DEBUG FILE__ napi_string 135
                "Argument is not a string!" v file line w)
      as [(_ & ws & Es & Rs) | [(Hs & _) | (Hs & _)]]; try contradiction.
    destruct (typeof_check_run _ _ env DEBUG FILE__ napi_number 151
                "Argument is not a string!" v file line w)
      as [(_ & wn & En & Rn) | [(Hn & _) | (Hn & _)]]; try contradiction.
    rewrite Eo, Es, En. cbn [fst snd]. repeat split; assumption.
  - rewrite EnsureValueIsArray_shape.
    destruct (question_check_run _ _ env DEBUG FILE__ (napi_is_array env) 167
                "Argument is not an array!" v file line w)
      as [(_ & wa & Ea & Ra) | [(Ha & _) | (Ha & _)]]; try contradiction.
    rewrite Ea. cbn [fst snd]. split; [reflexivity | exact Ra].
  - rewrite EnsureValueIsTypedArray_shape.
    destruct (question_check_run _ _ env DEBUG FILE__ (napi_is_typedarray env)
                183 "Argument is not a typed-array!" v file line w)
      as [(_ & wa & Ea & Ra) | [(Ha & _) | (Ha & _)]]; try contradiction.
    rewrite Ea. cbn [fst snd]. split; [reflexivity | exact Ra].
Qed.

(** X12. When [napi_get_new_target] itself fails with status [st],
    [EnsureConstructorCall] returns [false] having raised the text of
    [EnsureNapiOK] for [st], which is never the constructor-misuse text,
    and a guarded entry point returns at once without running its body. *)
Theorem EnsureConstructorCall_boundary_failure (info : napi_callback_info)
    (st : napi_status) (target : option napi_value) (file : string) (line : Z)
    (w : World) :
  napi_get_new_target env info = (st, target) ->
  st <> napi_ok ->
  let out := EnsureConstructorCall env DEBUG FILE__ info file line w in
  fst out = false
  /\ raises w (snd out) (napi_text env st)
  /\ napi_text env st <> "Function not used as a constructor!"%string
  /\ forall (A : Type) (retval : A) (body : M A) (l : Z),
       ENSURE_CONSTRUCTOR_CALL_RETVAL env DEBUG FILE__ info l retval body w
       = (retval, snd (EnsureConstructorCall env DEBUG FILE__ info FILE__ l w)).
Proof.
  intros Hcall Hst. cbv zeta.
  assert (Hrun : forall f l, exists w',
             EnsureConstructorCall env DEBUG FILE__ info f l w = (false, w')
             /\ raises w w' (napi_text env st)).
  { intros f l. unfold EnsureConstructorCall, napi_call. unfold bind at 1.
    rewrite Hcall. cbn [fst snd].
    destruct (checked_call_run _ _ env DEBUG FILE__ st
                (match target with Some _ => true | None => false end)
                102 "Function not used as a constructor!" f l
                (set_last_status st w))
      as [(_ & w' & Heq & Hr & _) | [(Hc & _) | (Hc & _)]]; try contradiction.
    cbv zeta in Heq. exists w'. split; [exact Heq | exact Hr]. }
  destruct (Hrun file line) as (w' & Heq & Hr). rewrite Heq. cbn [fst snd].
  split; [reflexivity |]. split; [exact Hr |]. split.
  - unfold napi_text. cbn [append substring]. discriminate.
  - intros A retval body l.
    unfold ENSURE_CONSTRUCTOR_CALL_RETVAL, return_unless, bind.
    destruct (Hrun FILE__ l) as (w'' & Heq' & _). rewrite Heq'. reflexivity.
Qed.

(** X13. [IsExceptionPending] returns the flag the runtime stored, or
    [false] if it stored none, whether or not the query succeeded; it
    raises nothing when the query succeeds and raises one error itself
    when the query fails. *)
Theorem IsExceptionPending_spec (st : napi_status) (stored : option bool)
    (w : World) :
  let out := IsExceptionPending env DEBUG FILE__ (st, stored) w in
  fst out = match stored with Some b => b | None => false end
  /\ (st = napi_ok -> thrown (snd out) = thrown w)
  /\ (st <> napi_ok -> raises w (snd out) (napi_text env st))
  /\ same_heap w (snd out).
Proof.
  cbv zeta. unfold IsExceptionPending, napi_call.
  unfold ENSURE_NAPI_OK_RETVAL, return_unless, bind, ret. cbn [fst snd].
  destruct (EnsureNapiOK_run _ _ env DEBUG st FILE__ 259 (set_last_status st w))
    as [[-> Heq] | (Hst & w' & Heq & Hr & Hh)]; rewrite Heq; cbn [fst snd].
  - split; [reflexivity |]. split; [reflexivity |].
    split; [congruence | apply same_heap_set_last_status].
  - split; [reflexivity |]. split; [contradiction |].
    split; [intros _; exact Hr |].
    eapply same_heap_trans; [apply (same_heap_set_last_status st) | exact Hh].
Qed.

Lemma labelled_message (label rest fmt : string) (args : list printf_arg) :
  format fmt args = (label ++ rest)%string ->
  (String.length label <= 499)%nat ->
  vsnprintf 500 fmt args
  = (label ++ substring 0 (499 - String.length label) rest)%string.
Proof.
  intros Hfmt Hlen. unfold vsnprintf. rewrite Hfmt.
  change (500 - 1)%nat with 499%nat. now apply substring_0_append.
Qed.

(** X14. Each of the three reporters raises exactly one error whatever
    the enumerator passed; the message starts with the reporter's own
    label, is at most 499 characters long, and no memory is touched. *)
Theorem reporters_always_raise (type : Z) (file : string) (line : Z)
    (w : World) :
  (exists tail,
     raises w (snd (ReportUnknownTFDataType env DEBUG type file line w))
       ("Unhandled TF_DataType: " ++ tail)%string
     /\ (String.length ("Unhandled TF_DataType: " ++ tail)%string <= 499)%nat
     /\ same_heap w (snd (ReportUnknownTFDataType env DEBUG type file line w)))
  /\ (exists tail,
        raises w (snd (ReportUnknownTFAttrType env DEBUG type file line w))
          ("Unhandled TF_AttrType: " ++ tail)%string
        /\ (String.length ("Unhandled TF_AttrType: " ++ tail)%string <= 499)%nat
        /\ same_heap w
             (snd (ReportUnknownTFAttrType env DEBUG type file line w)))
  /\ (exists tail,
        raises w (snd (ReportUnknownTypedArrayType env DEBUG type file line w))
          ("Unhandled napi typed_array_type: " ++ tail)%string
        /\ (String.length
              ("Unhandled napi typed_array_type: " ++ tail)%string <= 499)%nat
        /\ same_heap w
             (snd (ReportUnknownTypedArrayType env DEBUG type file line w))).
Proof.
  unfold ReportUnknownTFDataType, ReportUnknownTFAttrType,
    ReportUnknownTypedArrayType.
  split; [| split].
  - destruct (NapiThrowError_run _ _ env DEBUG file line
                ("Unhandled TF_DataType: %u" ++ LF)%string
                [ArgUnsigned type] w) as (w' & Hrun & Hr & Hh & _).
    rewrite Hrun. cbn [snd].
    pose proof (vsnprintf_500 ("Unhandled TF_DataType: %u" ++ LF)%string
                  [ArgUnsigned type]) as Hlen.
    rewrite (labelled_message "Unhandled TF_DataType: "
               (decimal (Int.to_uint32 type) ++ LF)) in Hr, Hlen
      by (reflexivity || (vm_compute; lia)).
    eexists. split; [exact Hr |]. split; [exact Hlen | exact Hh].
  - destruct (NapiThrowError_run _ _ env DEBUG file line
                ("Unhandled TF_AttrType: %u" ++ LF)%string
                [ArgUnsigned type] w) as (w' & Hrun & Hr & Hh & _).
    rewrite Hrun. cbn [snd].
    pose proof (vsnprintf_500 ("Unhandled TF_AttrType: %u" ++ LF)%string
                  [ArgUnsigned type]) as Hlen.
    rewrite (labelled_message "Unhandled TF_AttrType: "
               (decimal (Int.to_uint32 type) ++ LF)) in Hr, Hlen
      by (reflexivity || (vm_compute; lia)).
    eexists. split; [exact Hr |]. split; [exact Hlen | exact Hh].
  - destruct (NapiThrowError_run _ _ env DEBUG file line
                "Unhandled napi typed_array_type: %u"%string
                [ArgUnsigned type] w) as (w' & Hrun & Hr & Hh & _).
    rewrite Hrun. cbn [snd].
    pose proof (vsnprintf_500 "Unhandled napi typed_array_type: %u"%string
                  [ArgUnsigned type]) as Hlen.
    rewrite (labelled_message "Unhandled napi typed_array_type: "
               (decimal (Int.to_uint32 type) ++ "")) in Hr, Hlen
      by (reflexivity || (vm_compute; lia)).
    eexists. split; [exact Hr |]. split; [exact Hlen | exact Hh].
Qed.

End FailureTheorems.

(** ** More on shape extraction *)

Section ShapeMore.

Import Fmt FmtFacts Spec Contracts.
Local Open Scope Z_scope.

Variables napi_value napi_callback_info : Type.
Variable env : NodeApi napi_value napi_callback_info.
Variable DEBUG : bool.
Variable FILE__ : string.

Lemma raises_bounded_napi (w w' : World) :
  raises w w' (substring 0 499 (napi_failure_text env w)) ->
  exists msg, raises w w' msg /\ (String.length msg <= 499)%nat.
Proof.
  intros H. eexists. split; [exact H | apply substring_length_le].
Qed.

(** An iteration on an element that does not extract, with all it leaves
    behind. *)
Lemma ExtractArrayShape_loop_stop (n : nat) (i : Z) (arr : napi_value)
    (result : list Z) (w : World) :
  ~ extractable env arr i ->
  exists w',
    ExtractArrayShape_loop env DEBUG FILE__ (S n) i arr result w = (result, w')
    /\ (exists msg, raises w w' msg /\ (String.length msg <= 499)%nat)
    /\ same_heap w w'.
Proof.
  intros Hno. unfold extractable, element_at in Hno.
  cbn [ExtractArrayShape_loop].
  unfold ENSURE_NAPI_OK_RETVAL, return_unless, napi_call, bind, ret.
  destruct (EnsureNapiOK_run _ _ env DEBUG (fst (napi_get_element env arr i))
              FILE__ 247
              (set_last_status (fst (napi_get_element env arr i)) w))
    as [[H1 Heq] | (H1 & w' & Heq & Hr & Hh)]; rewrite Heq.
  - destruct (EnsureNapiOK_run _ _ env DEBUG
                (fst (napi_get_value_int64 env
                        (snd (napi_get_element env arr i))))
                FILE__ 251
                (set_last_status
                   (fst (napi_get_value_int64 env
                           (snd (napi_get_element env arr i))))
                   (set_last_status (fst (napi_get_element env arr i)) w)))
      as [[H2 Heq2] | (H2 & w' & Heq2 & Hr & Hh)]; [tauto |].
    rewrite Heq2. exists w'. split; [reflexivity |].
    split; [exact (raises_bounded_napi _ _ Hr) | exact Hh].
  - exists w'. split; [reflexivity |].
    split; [exact (raises_bounded_napi _ _ Hr) | exact Hh].
Qed.

(** The loop run from index [i] for at most [n] elements: it appends the
    coerced elements up to the first that does not extract. *)
Lemma ExtractArrayShape_loop_run (n : nat) :
  forall (i : Z) (arr : napi_value) (result : list Z) (w : World),
  exists k w',
    ExtractArrayShape_loop env DEBUG FILE__ n i arr result w
    = (result ++ coerced_from env arr i k, w')
    /\ (k <= n)%nat
    /\ (forall j, (j < k)%nat -> extractable env arr (i + Z.of_nat j))
    /\ same_heap w w'
    /\ ((k = n /\ thrown w' = thrown w)
        \/ ((k < n)%nat /\ ~ extractable env arr (i + Z.of_nat k)
            /\ exists msg, raises w w' msg /\ (String.length msg <= 499)%nat)).
Proof.
  induction n as [| n IH]; intros i arr result w.
  - exists 0%nat, w. cbn [ExtractArrayShape_loop coerced_from seq map].
    rewrite app_nil_r. unfold ret.
    split; [reflexivity |]. split; [lia |]. split; [intros j Hj; lia |].
    split; [apply same_heap_refl |]. left. split; reflexivity.
  - destruct (extractable_dec _ _ env arr i) as [Hyes | Hno].
    + rewrite (ExtractArrayShape_loop_step _ _ env DEBUG FILE__ n i arr result w Hyes).
      destruct (IH (i + 1) arr (result ++ [coerced_at env arr i])
                   (set_last_status napi_ok w))
        as (k & w' & Heq & Hk & Hall & Hh & Hend).
      exists (S k), w'. rewrite Heq, (coerced_from_S _ _ env), <- app_assoc.
      split; [reflexivity |]. split; [lia |]. split.
      * intros [| j] Hj; [now rewrite Z.add_0_r |].
        replace (i + Z.of_nat (S j)) with (i + 1 + Z.of_nat j) by lia.
        apply Hall. lia.
      * split; [exact Hh |].
        replace (i + Z.of_nat (S k)) with (i + 1 + Z.of_nat k) by lia.
        destruct Hend as [[-> Hth] | (Hlt & Hbad & Hmsg)].
        -- left. split; [reflexivity | exact Hth].
        -- right. split; [lia |]. split; [exact Hbad | exact Hmsg].
    + destruct (ExtractArrayShape_loop_stop n i arr result w Hno)
        as (w' & Heq & Hmsg & Hh).
      exists 0%nat, w'. rewrite Heq. cbn [coerced_from seq map].
      rewrite app_nil_r, Z.add_0_r.
      split; [reflexivity |]. split; [lia |]. split; [intros j Hj; lia |].
      split; [exact Hh |]. right. split; [lia |]. split; assumption.
Qed.

(** X15. Whatever the runtime answers, [ExtractArrayShape] only appends:
    its output is the input vector followed by the first [k] elements of
    the array, coerced, for some [k] up to the reported length [n], all of
    which extracted.  It allocates nothing.  Either it raised nothing, and
    then the length query succeeded and [k = n]; or it raised exactly one
    error (of at most 499 characters), and then the length query failed
    with [k = 0] or element [k < n] did not extract. *)
Theorem ExtractArrayShape_only_appends (arr : napi_value) (result : list Z)
    (w : World) :
  let out := ExtractArrayShape env DEBUG FILE__ arr result w in
  let n := Z.to_nat (snd (napi_get_array_length env arr)) in
  same_heap w (snd out)
  /\ exists k,
       fst out = result ++ coerced_from env arr 0 k
       /\ (forall j, (j < k)%nat -> extractable env arr (Z.of_nat j))
       /\ ((thrown (snd out) = thrown w
            /\ fst (napi_get_array_length env arr) = napi_ok /\ k = n)
           \/ ((exists msg,
                  raises w (snd out) msg /\ (String.length msg <= 499)%nat)
               /\ ((fst (napi_get_array_length env arr) <> napi_ok /\ k = 0%nat)
                   \/ (fst (napi_get_array_length env arr) = napi_ok
                       /\ (k < n)%nat
                       /\ ~ extractable env arr (Z.of_nat k))))).
Proof.
  cbv zeta.
  destruct (napi_status_eqb (fst (napi_get_array_length env arr)) napi_ok)
    eqn:E.
  - apply napi_status_eqb_ok in E.
    rewrite (ExtractArrayShape_length_ok _ _ env DEBUG FILE__ arr result w E).
    destruct (ExtractArrayShape_loop_run
                (Z.to_nat (snd (napi_get_array_length env arr))) 0 arr result
                (set_last_status napi_ok w))
      as (k & w' & Heq & Hk & Hall & Hh & Hend).
    rewrite Heq. cbn [fst snd]. split; [exact Hh |].
    exists k. split; [reflexivity |]. split; [exact Hall |].
    destruct Hend as [[-> Hth] | (Hlt & Hbad & Hmsg)].
    + left. repeat split; assumption.
    + right. split; [exact Hmsg |]. right. repeat split; assumption.
  - assert (Hfail : fst (napi_get_array_length env arr) <> napi_ok).
    { intros H. apply napi_status_eqb_ok in H. congruence. }
    unfold ExtractArrayShape, ENSURE_NAPI_OK_RETVAL, return_unless, napi_call,
      bind, ret.
    destruct (EnsureNapiOK_run _ _ env DEBUG
                (fst (napi_get_array_length env arr)) FILE__ 242
                (set_last_status (fst (napi_get_array_length env arr)) w))
      as [[H _] | (_ & w' & Heq & Hr & Hh)]; [contradiction |].
    rewrite Heq. cbn [fst snd]. split; [exact Hh |].
    exists 0%nat. cbn [coerced_from seq map]. rewrite app_nil_r.
    split; [reflexivity |]. split; [intros j Hj; lia |].
    right. split; [exact (raises_bounded_napi _ _ Hr) |]. left. split;
      [exact Hfail | reflexivity].
Qed.




End ShapeMore.

(** ** More on string extraction *)

Section StringMore.

Import Fmt FmtFacts Spec Contracts.
Local Open Scope Z_scope.

Variables napi_value napi_callback_info : Type.
Variable env : NodeApi napi_value napi_callback_info.
Variable DEBUG : bool.
Variable FILE__ : string.

(** [GetStringParam] up to the allocation, when the type check passes. *)
Lemma GetStringParam_after_type_check (v : napi_value) (str : string)
    (w : World) :
  napi_typeof env v = (napi_ok, napi_string) ->
  GetStringParam env DEBUG FILE__ v str w
  = (let r := napi_get_value_string_utf8 env v None in
     ENSURE_NAPI_OK_RETVAL env DEBUG FILE__ (fst r) 287 (fst r, str)
       (bind (malloc (Int.to_size_t (1 * (snd (snd r) + 1)))) (fun buffer =>
          return_unless (EnsureValueIsNotNull env DEBUG buffer FILE__ 290)
            (napi_generic_failure, str)
            match buffer with
            | None => ret (napi_generic_failure, str)
            | Some p =>
                bind (napi_call (napi_get_value_string_utf8 env v
                                   (Some (snd (snd r) + 1)))) (fun r2 =>
                  bind (store p (fst (snd r2))) (fun _ =>
                    ENSURE_NAPI_OK_RETVAL env DEBUG FILE__ (fst r2) 294
                      (fst r2, str)
                      (bind (load p) (fun bytes =>
                         bind (free p) (fun _ =>
                           ret (napi_ok,
                                substring 0 (Z.to_nat (snd (snd r2))) bytes))))))
            end))
       (set_last_status (fst r) (set_last_status napi_ok w))).
Proof.
  intros Htype. unfold GetStringParam. unfold return_unless at 1.
  unfold bind at 1.
  rewrite (EnsureValueIsString_ok _ _ env DEBUG FILE__ v FILE__ 280 w Htype).
  unfold napi_call at 1. unfold bind at 1. reflexivity.
Qed.

Lemma GetStringParam_type_check_fails (v : napi_value) (str : string)
    (w w' : World) :
  EnsureValueIsString env DEBUG FILE__ v FILE__ 280 w = (false, w') ->
  GetStringParam env DEBUG FILE__ v str w = ((napi_invalid_arg, str), w').
Proof.
  intros H. unfold GetStringParam. unfold return_unless at 1.
  unfold bind at 1. rewrite H. reflexivity.
Qed.

Ltac step_status :=
  match goal with
  | |- context [EnsureNapiOK env DEBUG ?st FILE__ ?l ?w0] =>
      let H := fresh "Hst" in
      let Heq := fresh "Heq" in
      let w' := fresh "w'" in
      let Hr := fresh "Hr" in
      let Hh := fresh "Hh" in
      destruct (EnsureNapiOK_run _ _ env DEBUG st FILE__ l w0)
        as [[H Heq] | (H & w' & Heq & Hr & Hh)];
      rewrite !Heq; cbv beta iota
  end.

(** X17. Whatever the runtime answers, [GetStringParam] returns [napi_ok]
    only if it raised nothing, and any other status only after raising
    exactly one error (of at most 499 characters), in which case the
    caller's string is left as it was. *)
Theorem GetStringParam_status (v : napi_value) (str : string) (w : World) :
  let out := GetStringParam env DEBUG FILE__ v str w in
  (fst (fst out) = napi_ok -> thrown (snd out) = thrown w)
  /\ (fst (fst out) <> napi_ok ->
      snd (fst out) = str
      /\ exists msg,
           raises w (snd out) msg /\ (String.length msg <= 499)%nat).
Proof.
  cbv zeta.
  pose proof (typeof_check_run _ _ env DEBUG FILE__ napi_string 135
                "Argument is not a string!" v FILE__ 280 w) as Hcheck.
  cbv zeta in Hcheck. rewrite <- EnsureValueIsString_shape in Hcheck.
  destruct Hcheck as [(_ & w' & Heq & Hr) | [(Hst & Ht & _) | (_ & _ & w' & Heq & Hr)]].
  - rewrite (GetStringParam_type_check_fails v str w w' Heq). cbn [fst snd].
    split; [discriminate |]. intros _. split; [reflexivity |].
    eexists. split; [exact Hr | apply substring_length_le].
  - assert (Htype : napi_typeof env v = (napi_ok, napi_string)).
    { destruct (napi_typeof env v) as [st t]. cbn [fst snd] in *. congruence. }
    rewrite (GetStringParam_after_type_check v str w Htype). cbv zeta.
    unfold ENSURE_NAPI_OK_RETVAL, return_unless, bind, ret, napi_call.
    step_status.
    + unfold malloc.
      destruct (Int.to_size_t
                  (1 * (snd (snd (napi_get_value_string_utf8 env v None)) + 1))
                <=? _) eqn:Emem; cbv beta iota.
      * unfold EnsureValueIsNotNull, bind, ret. cbn [negb]. cbv beta iota.
        unfold store. cbv beta iota. cbn [fst snd].
        step_status.
        -- unfold load, free, bind, ret. cbv beta iota.
           match goal with
           | |- context [block_at ?p (heap ?w0)] =>
               destruct (block_at p (heap w0))
           end; cbn [fst snd thrown set_heap set_last_status];
             (split; [reflexivity | intros Hne; contradiction]).
        -- cbn [fst snd]. split; [intros Hok; contradiction |].
           intros _. split; [reflexivity |].
           eexists. split; [exact Hr | apply substring_length_le].
      * unfold EnsureValueIsNotNull, bind, ret. cbv beta iota.
        match goal with
        | |- context [NapiThrowError env DEBUG ?f ?l ?t ?a ?w0] =>
            destruct (NapiThrowError_run _ _ env DEBUG f l t a w0)
              as (w' & Hrun & Hr & _);
            rewrite !Hrun; cbv beta iota
        end.
        cbn [negb fst snd]. split; [discriminate |]. intros _.
        split; [reflexivity |].
        eexists. split; [exact Hr | apply vsnprintf_500].
    + cbn [fst snd]. split; [intros Hok; contradiction |].
      intros _. split; [reflexivity |].
      eexists. split; [exact Hr | apply substring_length_le].
  - rewrite (GetStringParam_type_check_fails v str w w' Heq). cbn [fst snd].
    split; [discriminate |]. intros _. split; [reflexivity |].
    eexists. split; [exact Hr | apply vsnprintf_500].
Qed.

(** X18. [GetStringParam] fails before allocating anything when the value
    is not a string: if [napi_typeof] fails or reports another type it
    returns [napi_invalid_arg] (whatever status the query had), raising
    [Argument is not a string!] in the second case; if the length query
    fails with status [st] it returns [st] and raises the text for [st].
    In each case the caller's string and the heap are as they were. *)
Theorem GetStringParam_rejects (v : napi_value) (str : string) (w : World) :
  let out := GetStringParam env DEBUG FILE__ v str w in
  (napi_typeof env v <> (napi_ok, napi_string) ->
   fst out = (napi_invalid_arg, str) /\ same_heap w (snd out))
  /\ (fst (napi_typeof env v) = napi_ok ->
      snd (napi_typeof env v) <> napi_string ->
      raises w (snd out) "Argument is not a string!")
  /\ (napi_typeof env v = (napi_ok, napi_string) ->
      fst (napi_get_value_string_utf8 env v None) <> napi_ok ->
      fst out = (fst (napi_get_value_string_utf8 env v None), str)
      /\ raises w (snd out)
           (napi_text env (fst (napi_get_value_string_utf8 env v None)))
      /\ same_heap w (snd out)).
Proof.
  cbv zeta.
  pose proof (typeof_check_run _ _ env DEBUG FILE__ napi_string 135
                "Argument is not a string!" v FILE__ 280 w) as Hcheck.
  pose proof (typeof_check_contract _ _ env DEBUG FILE__ napi_string 135
                "Argument is not a string!" v FILE__ 280 w) as [Hheap _].
  cbv zeta in Hcheck.
  rewrite <- EnsureValueIsString_shape in Hcheck, Hheap.
  split; [| split].
  - intros Hnot.
    destruct Hcheck as [(_ & w' & Heq & _) | [(Hst & Ht & _) | (_ & _ & w' & Heq & _)]].
    + rewrite (GetStringParam_type_check_fails v str w w' Heq).
      rewrite Heq in Hheap. split; [reflexivity | exact Hheap].
    + exfalso. apply Hnot. destruct (napi_typeof env v). cbn [fst snd] in *.
      congruence.
    + rewrite (GetStringParam_type_check_fails v str w w' Heq).
      rewrite Heq in Hheap. split; [reflexivity | exact Hheap].
  - intros Hst Ht.
    destruct Hcheck as [(Hf & _) | [(_ & Hs & _) | (_ & _ & w' & Heq & Hr)]];
      try contradiction.
    rewrite (GetStringParam_type_check_fails v str w w' Heq). exact Hr.
  - intros Htype Hfail.
    rewrite (GetStringParam_after_type_check v str w Htype). cbv zeta.
    unfold ENSURE_NAPI_OK_RETVAL, return_unless, bind, ret, napi_call.
    step_status; [contradiction |].
    cbn [fst snd]. split; [reflexivity |]. split; [exact Hr |].
    eapply same_heap_trans; [| exact Hh]. repeat split.
Qed.

(** X19. When the value is a string of [n] bytes but [malloc] cannot grant
    the [n + 1] bytes, [GetStringParam] returns [napi_generic_failure],
    raises [Argument is null!], and leaves string and heap as they were. *)
Theorem GetStringParam_out_of_memory (v : napi_value) (str ignored : string)
    (n : Z) (w : World) :
  napi_typeof env v = (napi_ok, napi_string) ->
  napi_get_value_string_utf8 env v None = (napi_ok, (ignored, n)) ->
  0 <= n -> n + 1 <= Int.SIZE_MAX ->
  mem_avail w < n + 1 ->
  let out := GetStringParam env DEBUG FILE__ v str w in
  fst out = (napi_generic_failure, str)
  /\ raises w (snd out) "Argument is null!"
  /\ same_heap w (snd out).
Proof.
  intros Htype Hquery Hn Hmax Hmem. cbv zeta.
  rewrite (GetStringParam_after_type_check v str w Htype). cbv zeta.
  rewrite Hquery. cbn [fst snd].
  unfold ENSURE_NAPI_OK_RETVAL, return_unless, bind, ret, napi_call.
  rewrite EnsureNapiOK_ok. cbv beta iota.
  unfold malloc.
  replace (Int.to_size_t (1 * (n + 1))) with (n + 1)
    by (symmetry; rewrite Z.mul_1_l; apply IntFacts.to_size_t_small; lia).
  cbn [mem_avail set_last_status].
  replace (n + 1 <=? mem_avail w) with false
    by (symmetry; apply Z.leb_gt; lia).
  cbv beta iota. unfold EnsureValueIsNotNull, bind, ret. cbv beta iota.
  match goal with
  | |- context [NapiThrowError env DEBUG ?f ?l ?t ?a ?w0] =>
      destruct (NapiThrowError_run _ _ env DEBUG f l t a w0)
        as (w' & Hrun & Hr & Hh & _);
      rewrite !Hrun; cbv beta iota
  end.
  cbn [negb fst snd]. split; [reflexivity |]. split; [exact Hr |].
  eapply same_heap_trans; [| exact Hh]. repeat split.
Qed.

(** X20. On a string of [n] bytes, with the [n + 1] bytes available and the
    copy succeeding with the characters [bytes], [GetStringParam] returns
    [napi_ok] and hands [bytes] to the caller, raises nothing, and the heap
    is as it was on entry (the buffer is released). *)
Theorem GetStringParam_success (v : napi_value) (str ignored bytes : string)
    (n : Z) (w : World) :
  napi_typeof env v = (napi_ok, napi_string) ->
  napi_get_value_string_utf8 env v None = (napi_ok, (ignored, n)) ->
  0 <= n -> n + 1 <= Int.SIZE_MAX -> n + 1 <= mem_avail w ->
  Forall (fun e => fst e <> next_addr w) (heap w) ->
  napi_get_value_string_utf8 env v (Some (n + 1))
  = (napi_ok, (bytes, Z.of_nat (String.length bytes))) ->
  let out := GetStringParam env DEBUG FILE__ v str w in
  fst out = (napi_ok, bytes)
  /\ heap (snd out) = heap w
  /\ mem_avail (snd out) = mem_avail w
  /\ thrown (snd out) = thrown w.
Proof.
  intros Htype Hquery Hn Hmax Havail Hfresh Hcopy. cbv zeta.
  destruct (GetStringParam_success_releases _ _ env DEBUG FILE__ v str ignored
              bytes n (Z.of_nat (String.length bytes)) w
              Htype Hquery Hn Hmax Havail Hfresh Hcopy)
    as (w' & Heq & Hheap & Hmem & Hth).
  rewrite Heq. cbn [fst snd]. rewrite Nat2Z.id.
  rewrite substring_0_whole by lia.
  repeat split; assumption.
Qed.

End StringMore.

(** ** The further results at work *)

Module MoreRuns.

Import Fmt FmtFacts Spec Contracts Inputs.
Local Open Scope string_scope.
Local Open Scope Z_scope.


Lemma type_validators_decide_witness :
  fst (EnsureValueIsObject Js.runtime false "utils.h" (Js.Str "x")
         "binding.cc" 20 Js.initial_world) = true
  <-> napi_string = napi_object.
Proof.
  apply (type_validators_decide _ _ Js.runtime false "utils.h" (Js.Str "x")
           napi_string "binding.cc" 20 Js.initial_world eq_refl).
Defined.

Lemma array_validators_decide_witness :
  fst (EnsureValueIsArray Js.runtime false "utils.h" (Js.Array [])
         "binding.cc" 21 Js.initial_world) = true
  /\ fst (EnsureValueIsTypedArray Js.runtime false "utils.h" (Js.Array [])
            "binding.cc" 21 Js.initial_world) = false.
Proof.
  pose proof (array_validators_decide _ _ Js.runtime false "utils.h"
                (Js.Array []) true false "binding.cc" 21 Js.initial_world
                eq_refl eq_refl) as (Ha & Ht & _).
  split; [exact Ha | exact Ht].
Defined.

Lemma validators_report_boundary_failure_witness :
  fst (EnsureValueIsObject Pending.runtime false "utils.h" Js.Object
         "binding.cc" 22 Js.initial_world) = false
  /\ raises Js.initial_world
       (snd (EnsureValueIsObject Pending.runtime false "utils.h" Js.Object
               "binding.cc" 22 Js.initial_world))
       ("Invalid napi_status: An exception is pending" ++ LF).
Proof.
  destruct (validators_report_boundary_failure _ _ Pending.runtime false
              "utils.h" Js.Object "binding.cc" 22 Js.initial_world)
    as (H & _).
  destruct H as (Hf & Hr & _); [discriminate |].
  split; [exact Hf | exact Hr].
Defined.

Lemma EnsureConstructorCall_boundary_failure_witness :
  fst (EnsureConstructorCall Pending.runtime false "utils.h"
         (Js.mkInfo (Some Js.Function)) "binding.cc" 23 Js.initial_world)
  = false.
Proof.
  apply (EnsureConstructorCall_boundary_failure _ _ Pending.runtime false
           "utils.h" (Js.mkInfo (Some Js.Function)) napi_pending_exception
           None "binding.cc" 23 Js.initial_world eq_refl).
  discriminate.
Defined.

Lemma IsExceptionPending_spec_witness :
  fst (IsExceptionPending Js.runtime false "utils.h" (napi_ok, Some true)
         Js.initial_world) = true
  /\ raises Js.initial_world
       (snd (IsExceptionPending Js.runtime false "utils.h"
               (napi_generic_failure, None) Js.initial_world))
       ("Invalid napi_status: Unknown failure" ++ LF).
Proof.
  split.
  - apply (IsExceptionPending_spec _ _ Js.runtime false "utils.h" napi_ok
             (Some true) Js.initial_world).
  - destruct (IsExceptionPending_spec _ _ Js.runtime false "utils.h"
                napi_generic_failure None Js.initial_world)
      as (_ & _ & H & _).
    apply H. discriminate.
Defined.

Lemma GetStringParam_status_witness :
  thrown (snd (GetStringParam Js.runtime false "utils.h" (Js.Str "hello") ""
                 Js.initial_world)) = []
  /\ snd (fst (GetStringParam Js.runtime false "utils.h" (Js.Number 3) "old"
                 Js.initial_world)) = "old".
Proof.
  split.
  - destruct (GetStringParam_status _ _ Js.runtime false "utils.h"
                (Js.Str "hello") "" Js.initial_world) as (H & _).
    apply H. reflexivity.
  - destruct (GetStringParam_status _ _ Js.runtime false "utils.h"
                (Js.Number 3) "old" Js.initial_world) as (_ & H).
    destruct H as (Hs & _); [discriminate | exact Hs].
Defined.

Lemma GetStringParam_rejects_witness :
  fst (GetStringParam Js.runtime false "utils.h" (Js.Number 3) "old"
         Js.initial_world) = (napi_invalid_arg, "old")
  /\ raises Js.initial_world
       (snd (GetStringParam Js.runtime false "utils.h" (Js.Number 3) "old"
               Js.initial_world))
       "Argument is not a string!".
Proof.
  destruct (GetStringParam_rejects _ _ Js.runtime false "utils.h"
              (Js.Number 3) "old" Js.initial_world) as (H1 & H2 & _).
  split.
  - apply H1. discriminate.
  - apply H2; [reflexivity | discriminate].
Defined.

Lemma GetStringParam_out_of_memory_witness :
  fst (GetStringParam Js.runtime false "utils.h" (Js.Str "hello") "old"
         Pending.low_memory) = (napi_generic_failure, "old")
  /\ raises Pending.low_memory
       (snd (GetStringParam Js.runtime false "utils.h" (Js.Str "hello") "old"
               Pending.low_memory))
       "Argument is null!".
Proof.
  destruct (GetStringParam_out_of_memory _ _ Js.runtime false "utils.h"
              (Js.Str "hello") "old" "" 5 Pending.low_memory)
    as (Hf & Hr & _).
  - reflexivity.
  - reflexivity.
  - lia.
  - unfold Int.SIZE_MAX. lia.
  - cbn. lia.
  - split; [exact Hf | exact Hr].
Defined.

Lemma GetStringParam_success_witness :
  fst (GetStringParam Js.runtime false "utils.h" (Js.Str "hello") "old"
         Js.initial_world) = (napi_ok, "hello")
  /\ heap (snd (GetStringParam Js.runtime false "utils.h" (Js.Str "hello")
                  "old" Js.initial_world)) = [].
Proof.
  destruct (GetStringParam_success _ _ Js.runtime false "utils.h"
              (Js.Str "hello") "old" "" "hello" 5 Js.initial_world)
    as (Hf & Hheap & _).
  - reflexivity.
  - reflexivity.
  - lia.
  - unfold Int.SIZE_MAX. lia.
  - cbn. lia.
  - constructor.
  - reflexivity.
  - split; [exact Hf | exact Hheap].
Defined.

End MoreRuns.
